(** * Product sync service: bulk sync, log query, CSV export and retention

    A shallow embedding of the Express route handlers of
    [backend/routes/products.js] (POST /sync, GET /:id, GET /categories/list,
    GET /vendors/list) and of the log router (GET /, GET /:id,
    GET /stats/overview, GET /stats/timeline, GET /user/:userId,
    GET /export/csv, DELETE /cleanup), together with the two Mongoose
    schemas they write through ([Product], [SyncLog]).

    Modelling conventions.
    - JavaScript numbers that the handlers compute with (counters, page
      numbers, day counts, millisecond timestamps) are exact integers [Z];
      prices and stock levels, which are only compared with 0, are rationals.
    - A value that may be [undefined] is an [option]; JavaScript truthiness of
      an optional string is [truthy].
    - A string is a sequence of code units below 256: the model's strings are
      the JavaScript strings over U+0000 to U+00FF.
    - A Date is its time value; one outside the range of Date (more than
      8.64e15 ms from the epoch) is Invalid Date.  The server's time zone is
      UTC, so that every day has 24 hours and midnight is a multiple of a day.
    - A query parameter is a string or absent, and a date parameter is a
      text that [new Date] can read.
    - The document store is explicit state ([World]): the collections, the id
      counter, the clock, and an oracle saying which store round trips fail.
      A handler is a function from a request and a [World] to a response and
      a [World]; an exception is the left injection of a sum and leaves the
      state as it was when it was raised.
    - An element of a sync batch is [null] or a JSON object that carries only
      keys of the eight paths of [ProductData], with strings for the String
      paths and numbers for price and stock ([Item]).  Payloads with further
      keys, which [Object.assign] would copy onto the document, or with values
      of other types are outside the model; the statements about batches say
      so where it matters.
    - The order in which the store delivers the groups of an aggregation or
      the values of a [distinct] is not specified by the store; the model
      takes the order of first appearance, and no statement depends on it. *)

From Stdlib Require Import ZArith List Bool Ascii String Lia QArith.
From Stdlib Require Import DecimalString.
From Stdlib Require Import Sorted Permutation.
Import ListNotations.

Local Open Scope string_scope.
Local Open Scope Z_scope.

(* ================================================================== *)
(** ** JavaScript primitives used by the handlers *)

Module JS.

(** The double quote character, U+0022. *)
Definition dq : ascii := ascii_of_nat 34.

(** [x || d] on optional strings: [undefined] and the empty string are falsy. *)
Definition truthy (o : option string) : bool :=
  match o with
  | Some s => negb (String.eqb s EmptyString)
  | None => false
  end.

Definition orString (o : option string) (d : string) : string :=
  match o with
  | Some s => if String.eqb s EmptyString then d else s
  | None => d
  end.

(** Template-literal interpolation [`${x}`] of an optional string. *)
Definition interp (o : option string) : string :=
  match o with
  | Some s => s
  | None => "undefined"
  end.

(** [String(n)] for a non-negative integer counter. *)
Definition showNat (n : nat) : string := NilEmpty.string_of_uint (Nat.to_uint n).

Definition showZ (z : Z) : string :=
  match z with
  | Z0 => "0"
  | Zpos p => showNat (Pos.to_nat p)
  | Zneg p => "-" ++ showNat (Pos.to_nat p)
  end.

(** White space skipped by [parseInt] and removed by [trim]: the members of
    WhiteSpace and LineTerminator among the code units below 256, which are
    tab, line feed, vertical tab, form feed, carriage return, space and the
    no-break space U+00A0. *)
Definition isWhite (c : ascii) : bool :=
  let n := nat_of_ascii c in
  (Nat.eqb n 32 || Nat.eqb n 9 || Nat.eqb n 10 || Nat.eqb n 11
   || Nat.eqb n 12 || Nat.eqb n 13 || Nat.eqb n 160)%bool.

Fixpoint trimStart (s : string) : string :=
  match s with
  | String c r => if isWhite c then trimStart r else s
  | EmptyString => EmptyString
  end.

Fixpoint trimEnd (s : string) : string :=
  match s with
  | String c r =>
      match trimEnd r with
      | EmptyString => if isWhite c then EmptyString else String c EmptyString
      | r' => String c r'
      end
  | EmptyString => EmptyString
  end.

Definition trim (s : string) : string := trimEnd (trimStart s).

(** Value of a character as a digit in bases up to 36. *)
Definition digitVal (c : ascii) : option Z :=
  let n := Z.of_nat (nat_of_ascii c) in
  if (48 <=? n) && (n <=? 57) then Some (n - 48)
  else if (97 <=? n) && (n <=? 122) then Some (n - 87)
  else if (65 <=? n) && (n <=? 90) then Some (n - 55)
  else None.

(** Longest prefix of radix-[r] digits, accumulated left to right;
    [None] when the prefix is empty. *)
Fixpoint digitsFrom (r : Z) (acc : option Z) (s : string) : option Z :=
  match s with
  | String c rest =>
      match digitVal c with
      | Some d =>
          if d <? r
          then digitsFrom r (Some (match acc with Some a => a * r + d | None => d end)) rest
          else acc
      | None => acc
      end
  | EmptyString => acc
  end.

Definition stripHex (s : string) : option string :=
  match s with
  | String c0 (String c1 rest) =>
      if (Ascii.eqb c0 "0" && (Ascii.eqb c1 "x" || Ascii.eqb c1 "X"))%bool
      then Some rest else None
  | _ => None
  end.

(** [parseInt(s)] without a radix argument; [None] is NaN. *)
Definition parseInt (s : string) : option Z :=
  let s1 := trimStart s in
  let '(sign, s2) :=
    match s1 with
    | String c rest =>
        if Ascii.eqb c "-" then (-1, rest)
        else if Ascii.eqb c "+" then (1, rest)
        else (1, s1)
    | EmptyString => (1, s1)
    end in
  let mag :=
    match stripHex s2 with
    | Some s3 => digitsFrom 16 None s3
    | None => digitsFrom 10 None s2
    end in
  option_map (Z.mul sign) mag.

(** [parseInt(q) || d] for a query parameter [q] that may be absent:
    [parseInt(undefined)] is NaN, and both NaN and 0 are falsy. *)
Definition parseIntOr (q : option string) (d : Z) : Z :=
  match parseInt (interp q) with
  | Some z => if z =? 0 then d else z
  | None => d
  end.

(** [s.split(sep)] for a one-character separator. *)
Fixpoint split (sep : ascii) (s : string) : list string :=
  match s with
  | EmptyString => [EmptyString]
  | String c r =>
      if Ascii.eqb c sep then EmptyString :: split sep r
      else match split sep r with
           | h :: t => String c h :: t
           | [] => [String c EmptyString]
           end
  end.

(** [a[i]] rendered inside [join]: a missing element prints as nothing. *)
Definition at_ (l : list string) (i : nat) : string := nth i l EmptyString.

(** The global replacement of the message field: every double quote
    character is replaced by two of them. *)
Fixpoint doubleQuotes (s : string) : string :=
  match s with
  | EmptyString => EmptyString
  | String c r =>
      if Ascii.eqb c dq then String dq (String dq (doubleQuotes r))
      else String c (doubleQuotes r)
  end.

(** [a.join(sep)]. *)
Definition join (sep : string) (l : list string) : string := String.concat sep l.

(** [Math.ceil(a / b)] for integers [a] and [b <> 0]. *)
Definition ceilDiv (a b : Z) : Z := - ((- a) / b).

(** Left-padding of a non-negative number with zeros to [w] digits. *)
Fixpoint zeros (n : nat) : string :=
  match n with
  | O => EmptyString
  | S k => String "0" (zeros k)
  end.

Definition pad (w : nat) (z : Z) : string :=
  let s := showZ z in zeros (w - String.length s) ++ s.

Definition msPerDay : Z := 86400000.

(** The largest time value of a Date. *)
Definition maxTime : Z := 8640000000000000.

(** TimeClip: a time value out of range makes an Invalid Date, [None]. *)
Definition timeClip (t : Z) : option Z :=
  if Z.abs t <=? maxTime then Some t else None.

(** [d.setDate(d.getDate() - n)] on the date with time value [t]. *)
Definition minusDays (t n : Z) : option Z := timeClip (t - n * msPerDay).

(** [new Date(ms).toISOString()] for years 0000 to 9999: the proleptic
    Gregorian date of the day number, then the time of day. *)
Definition toISOString (ms : Z) : string :=
  let days := ms / msPerDay in
  let tod := ms mod msPerDay in
  let z := days + 719468 in
  let era := z / 146097 in
  let doe := z - era * 146097 in
  let yoe := (doe - doe / 1460 + doe / 36524 - doe / 146096) / 365 in
  let doy := doe - (365 * yoe + yoe / 4 - yoe / 100) in
  let mp := (5 * doy + 2) / 153 in
  let d := doy - (153 * mp + 2) / 5 + 1 in
  let m := if mp <? 10 then mp + 3 else mp - 9 in
  let y := yoe + era * 400 + (if m <=? 2 then 1 else 0) in
  pad 4 y ++ "-" ++ pad 2 m ++ "-" ++ pad 2 d ++ "T"
  ++ pad 2 (tod / 3600000) ++ ":" ++ pad 2 ((tod / 60000) mod 60) ++ ":"
  ++ pad 2 ((tod / 1000) mod 60) ++ "." ++ pad 3 (tod mod 1000) ++ "Z".

End JS.

(* ================================================================== *)
(** ** Documents of the two collections *)

Definition ObjectId := nat.

(** The authenticated actor that the [auth] middleware puts in [req.user],
    and a document of the users collection. *)
Record User := mkUser {
  u_id : ObjectId;
  u_username : string;
  u_email : string;
  u_role : string
}.

(** A JSON value read where a string is expected: the key is absent
    ([undefined]), or it holds [null], or it holds a string. *)
Inductive Given := Absent | IsNull | Text (s : string).

(** The keys of an object of [req.body.products] that the Product schema
    knows: an absent key is [None]. *)
Record ProductData := mkProductData {
  pd_name : option string;
  pd_sku : option string;
  pd_description : option string;
  pd_price : option Q;
  pd_category : option string;
  pd_stock : option Q;
  pd_status : option string;
  pd_vendor : option string
}.

(** One element of [req.body.products].  [Obj d] is a JSON object that
    carries only keys of [ProductData]; a number, a string, a boolean or an
    array has none of the eight keys and is read as the object without keys.
    [Null] is the JSON value null, whose properties cannot be read. *)
Inductive Item := Null | Obj (productData : ProductData).

(** A [Product] document (models/Product.js).  The paths that no modelled
    handler reads (images, tags, syncErrors, timestamps) are left out; a
    [syncSource] of [None] is null. *)
Record Product := mkProduct {
  p_id : ObjectId;
  p_name : option string;
  p_sku : option string;
  p_description : option string;
  p_price : option Q;
  p_category : option string;
  p_stock : Q;
  p_status : string;
  p_vendor : option string;
  p_lastSyncedAt : Z;
  p_syncSource : option string;
  p_syncStatus : string
}.

(** The [results] object of the sync handler. *)
Record Results := mkResults {
  created : nat;
  updated : nat;
  errors : nat;
  total : nat
}.

(** The [details] payloads (schema type Mixed) written by the handlers. *)
Inductive Details :=
| DSyncError (error : string) (productData : ProductData)
| DSyncResults (results : Results)
| DCleanup (deletedCount : nat) (daysToKeep : Z).

(** The object handed to [SyncLog.createLog]. *)
Record LogData := mkLogData {
  ld_operation : option string;
  ld_entityType : option string;
  ld_entityId : option ObjectId;
  ld_message : option string;
  ld_details : option Details;
  ld_userId : option ObjectId;
  ld_username : option string;
  ld_level : option string;
  ld_source : Given;
  ld_ipAddress : option string;
  ld_userAgent : option string;
  ld_duration : option Z
}.

(** A [SyncLog] document with the schema defaults applied; a [source] of
    [None] is null. *)
Record SyncLog := mkSyncLog {
  l_id : ObjectId;
  l_operation : option string;
  l_entityType : option string;
  l_entityId : option ObjectId;
  l_message : option string;
  l_details : option Details;
  l_userId : option ObjectId;
  l_username : option string;
  l_level : string;
  l_source : option string;
  l_ipAddress : option string;
  l_userAgent : option string;
  l_duration : option Z;
  l_status : string;
  l_createdAt : Z
}.

(** A log entry after [.populate('userId', ...)]: the referenced user
    document, or [None] (null) when there is no such user. *)
Record PopulatedLog := mkPopulated {
  pl_log : SyncLog;
  pl_user : option User
}.

(* ================================================================== *)
(** ** Errors, the store, and the handler monad *)

Inductive Coll := Products | SyncLogs | Users.

Definition Coll_eqb (a b : Coll) : bool :=
  match a, b with
  | Products, Products | SyncLogs, SyncLogs | Users, Users => true
  | _, _ => false
  end.

(** What a store call or a Mongoose validation can throw. *)
Inductive Error :=
| ValidationError (model : string) (paths : list string)
| DuplicateKey (path : string)
| CastError (path : string)
| BadValue (what : string)
| TypeError (message : string)
| StoreFailure (c : Coll).

(** [error.message].  The texts stand for those of the library. *)
Definition errMessage (e : Error) : string :=
  match e with
  | ValidationError m ps => m ++ " validation failed: " ++ JS.join ", " ps
  | DuplicateKey p => "E11000 duplicate key error: " ++ p
  | CastError p => "Cast failed for path " ++ p
  | BadValue s => s
  | TypeError s => s
  | StoreFailure Products => "store failure: products"
  | StoreFailure SyncLogs => "store failure: synclogs"
  | StoreFailure Users => "store failure: users"
  end.

(** The state of the world a handler runs in.  [calls c] counts the round
    trips made so far to collection [c]; round trip number [n] to [c] fails
    when [faults c n] holds and takes [latency c n] milliseconds.
    [regexI pattern text] is the store's answer to a [$regex] query with
    option [i]. *)
Record World := mkWorld {
  products : list Product;
  logs : list SyncLog;
  users : list User;
  nextId : ObjectId;
  clock : Z;
  calls : Coll -> nat;
  faults : Coll -> nat -> bool;
  latency : Coll -> nat -> nat;
  regexI : string -> string -> bool
}.

Definition setProducts (ps : list Product) (w : World) : World :=
  mkWorld ps (logs w) (users w) (nextId w) (clock w) (calls w) (faults w) (latency w)
          (regexI w).

Definition setLogs (ls : list SyncLog) (w : World) : World :=
  mkWorld (products w) ls (users w) (nextId w) (clock w) (calls w) (faults w) (latency w)
          (regexI w).

Definition bumpId (w : World) : World :=
  mkWorld (products w) (logs w) (users w) (S (nextId w)) (clock w) (calls w)
          (faults w) (latency w) (regexI w).

Definition tick (c : Coll) (w : World) : World :=
  mkWorld (products w) (logs w) (users w) (nextId w)
          (clock w + Z.of_nat (latency w c (calls w c)))
          (fun c' => if Coll_eqb c c' then S (calls w c') else calls w c')
          (faults w) (latency w) (regexI w).

(** Computations over a state [S] that may throw. *)
Definition M (S A : Type) : Type := S -> (Error + A) * S.

Definition ret {S A} (a : A) : M S A := fun s => (inr a, s).

Definition bind {S A B} (m : M S A) (k : A -> M S B) : M S B :=
  fun s => match m s with
           | (inr a, s') => k a s'
           | (inl e, s') => (inl e, s')
           end.

Definition throw {S A} (e : Error) : M S A := fun s => (inl e, s).

(** [try { body } catch (error) { handler }]: the handler runs in the state
    the body had reached. *)
Definition tryCatch {S A} (body : M S A) (handler : Error -> M S A) : M S A :=
  fun s => match body s with
           | (inr a, s') => (inr a, s')
           | (inl e, s') => handler e s'
           end.

Definition gets {S A} (f : S -> A) : M S A := fun s => (inr (f s), s).

Definition modify {S} (f : S -> S) : M S unit := fun s => (inr tt, f s).

Declare Scope handler_scope.
Delimit Scope handler_scope with handler.
Notation "x <- m ;; k" := (bind m (fun x => k))
  (at level 61, m at next level, right associativity) : handler_scope.
Notation "m ;; k" := (bind m (fun _ => k))
  (at level 61, right associativity) : handler_scope.
Local Open Scope handler_scope.

(* ================================================================== *)
(** ** Store round trips and the two Mongoose models *)

(** One round trip to collection [c]: it advances the call counter and the
    clock, and throws when the oracle says that it fails. *)
Definition roundTrip (c : Coll) : M World unit :=
  fun w => if faults w c (calls w c)
           then (inl (StoreFailure c), tick c w)
           else (inr tt, tick c w).

(** The fresh [_id] that [new Model(...)] gives a document. *)
Definition newObjectId : M World ObjectId := fun w => (inr (nextId w), bumpId w).

(** [new Date()] and [Date.now()]. *)
Definition now : M World Z := gets clock.

Definition inEnum (vals : list string) (v : string) : bool :=
  existsb (String.eqb v) vals.

Definition requiredEnum (vals : list string) (o : option string) : bool :=
  match o with
  | Some s => inEnum vals s
  | None => false
  end.

(** The enum validator of a path that is not required: it accepts [null]
    and [undefined] ([null == v || values.indexOf(v) !== -1]). *)
Definition optionalEnum (vals : list string) (o : option string) : bool :=
  match o with
  | Some s => inEnum vals s
  | None => true
  end.

Definition orDefault (o : option string) (d : string) : string :=
  match o with
  | Some s => s
  | None => d
  end.

Definition check (ok : bool) (path : string) : list string :=
  if ok then [] else [path].

Module ProductModel.

Definition statusEnum := ["active"; "inactive"; "discontinued"].
Definition syncSourceEnum := ["manual"; "api"; "csv"; "xml"].
Definition syncStatusEnum := ["pending"; "synced"; "error"].

Definition nonNegative (q : Q) : bool := Qle_bool 0 q.

(** The paths that fail the schema validators, in schema order. *)
Definition pathErrors (p : Product) : list string :=
  check (JS.truthy (p_name p)) "name"
  ++ check (JS.truthy (p_sku p)) "sku"
  ++ check (match p_price p with Some q => nonNegative q | None => false end) "price"
  ++ check (JS.truthy (p_category p)) "category"
  ++ check (nonNegative (p_stock p)) "stock"
  ++ check (inEnum statusEnum (p_status p)) "status"
  ++ check (optionalEnum syncSourceEnum (p_syncSource p)) "syncSource"
  ++ check (inEnum syncStatusEnum (p_syncStatus p)) "syncStatus".

(** [new Product({...productData, lastSyncedAt, syncSource, syncStatus})]:
    the [trim] setters and the schema defaults are applied. *)
Definition create (id : ObjectId) (d : ProductData) (t : Z) (source : option string)
  : Product :=
  {| p_id := id;
     p_name := option_map JS.trim (pd_name d);
     p_sku := option_map JS.trim (pd_sku d);
     p_description := option_map JS.trim (pd_description d);
     p_price := pd_price d;
     p_category := option_map JS.trim (pd_category d);
     p_stock := match pd_stock d with Some q => q | None => 0%Q end;
     p_status := orDefault (pd_status d) "active";
     p_vendor := option_map JS.trim (pd_vendor d);
     p_lastSyncedAt := t;
     p_syncSource := source;
     p_syncStatus := "synced" |}.

Definition over {A} (new old : option A) : option A :=
  match new with
  | Some _ => new
  | None => old
  end.

(** [Object.assign(existingProduct, productData)] followed by the three
    assignments of the update branch: every key present in the payload
    overwrites the document's value.  (The payload has no other keys.) *)
Definition assign (p : Product) (d : ProductData) (t : Z) (source : option string)
  : Product :=
  {| p_id := p_id p;
     p_name := over (option_map JS.trim (pd_name d)) (p_name p);
     p_sku := over (option_map JS.trim (pd_sku d)) (p_sku p);
     p_description := over (option_map JS.trim (pd_description d)) (p_description p);
     p_price := over (pd_price d) (p_price p);
     p_category := over (option_map JS.trim (pd_category d)) (p_category p);
     p_stock := match pd_stock d with Some q => q | None => p_stock p end;
     p_status := orDefault (pd_status d) (p_status p);
     p_vendor := over (option_map JS.trim (pd_vendor d)) (p_vendor p);
     p_lastSyncedAt := t;
     p_syncSource := source;
     p_syncStatus := "synced" |}.

Definition skuMatches (k : option string) (p : Product) : bool :=
  match k, p_sku p with
  | Some s, Some s' => String.eqb s s'
  | None, None => true
  | _, _ => false
  end.

(** [Product.findOne({ sku })]: the first document whose sku equals the
    (trimmed) value; an [undefined] value is sent as null and matches only a
    document without sku. *)
Definition findOne (sku : option string) : M World (option Product) :=
  roundTrip Products ;;
  gets (fun w => find (skuMatches (option_map JS.trim sku)) (products w)).

Fixpoint upsert (p : Product) (ps : list Product) : list Product :=
  match ps with
  | [] => [p]
  | q :: r => if Nat.eqb (p_id q) (p_id p) then p :: r else q :: upsert p r
  end.

(** [doc.save()]: validation runs first and throws without a round trip;
    the unique index on sku rejects a second document with the same sku. *)
Definition save (p : Product) : M World unit :=
  match pathErrors p with
  | (_ :: _) as paths => throw (ValidationError "Product" paths)
  | [] =>
      roundTrip Products ;;
      ps <- gets products ;;
      if existsb (fun q => skuMatches (p_sku p) q && negb (Nat.eqb (p_id q) (p_id p))) ps
      then throw (DuplicateKey "sku")
      else modify (setProducts (upsert p ps))
  end.

End ProductModel.

Module SyncLogModel.

Definition operationEnum :=
  ["create"; "update"; "delete"; "sync"; "error"; "info"; "warning"].
Definition entityTypeEnum := ["product"; "user"; "system"; "auth"].
Definition levelEnum := ["info"; "warning"; "error"; "success"].
Definition sourceEnum := ["api"; "web"; "system"; "sync"].
Definition statusEnum := ["success"; "failed"; "pending"].

Definition pathErrors (l : SyncLog) : list string :=
  check (requiredEnum operationEnum (l_operation l)) "operation"
  ++ check (requiredEnum entityTypeEnum (l_entityType l)) "entityType"
  ++ check (JS.truthy (l_message l)) "message"
  ++ check (inEnum levelEnum (l_level l)) "level"
  ++ check (optionalEnum sourceEnum (l_source l)) "source"
  ++ check (inEnum statusEnum (l_status l)) "status".

(** The default of a path replaces [undefined], not null. *)
Definition sourceOrDefault (g : Given) : option string :=
  match g with
  | Absent => Some "web"
  | IsNull => None
  | Text s => Some s
  end.

(** [new this(logData)], stamped with the creation time [t]. *)
Definition create (id : ObjectId) (d : LogData) (t : Z) : SyncLog :=
  {| l_id := id;
     l_operation := ld_operation d;
     l_entityType := ld_entityType d;
     l_entityId := ld_entityId d;
     l_message := ld_message d;
     l_details := ld_details d;
     l_userId := ld_userId d;
     l_username := ld_username d;
     l_level := orDefault (ld_level d) "info";
     l_source := sourceOrDefault (ld_source d);
     l_ipAddress := ld_ipAddress d;
     l_userAgent := ld_userAgent d;
     l_duration := ld_duration d;
     l_status := "success";
     l_createdAt := t |}.

(** The static [createLog]: build, save, return; an error is reported on the
    console and thrown again. *)
Definition createLog (logData : LogData) : M World SyncLog :=
  tryCatch
    (id <- newObjectId ;;
     t <- now ;;
     let log := create id logData t in
     match pathErrors log with
     | (_ :: _) as paths => throw (ValidationError "SyncLog" paths)
     | [] =>
         roundTrip SyncLogs ;;
         modify (fun w => setLogs (logs w ++ [log]) w) ;;
         ret log
     end)
    (fun error => throw error).

End SyncLogModel.

(* ================================================================== *)
(** ** Responses *)

Record Pagination := mkPagination {
  current : Z;
  pages : Z;
  pg_total : nat;
  hasNext : bool;
  hasPrev : bool
}.

Inductive Response :=
| SyncCompleted (results : Results) (duration : Z)
| LogsPage (entries : list PopulatedLog) (pagination : Pagination)
| CsvFile (content : string)
| CleanupCompleted (deletedCount : nat)
| Failure (status : nat) (message : string).

(* ================================================================== *)
(** ** POST /sync (routes/products.js) *)

Module Sync.

Record Request := mkRequest {
  body_products : option (list Item);   (* [None]: not an array *)
  body_source : Given;
  req_user : User;
  req_ip : option string;
  req_userAgent : option string
}.

(** The handler's state: the world and the mutable [results] object. *)
Definition State : Type := World * Results.

Definition liftW {A} (m : M World A) : M State A :=
  fun s => let '(x, w') := m (fst s) in (x, (w', snd s)).

Definition incCreated : M State unit :=
  modify (fun s => (fst s, mkResults (S (created (snd s))) (updated (snd s))
                                     (errors (snd s)) (total (snd s)))).

Definition incUpdated : M State unit :=
  modify (fun s => (fst s, mkResults (created (snd s)) (S (updated (snd s)))
                                     (errors (snd s)) (total (snd s)))).

Definition incErrors : M State unit :=
  modify (fun s => (fst s, mkResults (created (snd s)) (updated (snd s))
                                     (S (errors (snd s))) (total (snd s)))).

(** [const { products, source = 'api' } = req.body]: the default replaces
    [undefined] only, a null source stays null ([None]). *)
Definition sourceOf (req : Request) : option string :=
  match body_source req with
  | Absent => Some "api"
  | IsNull => None
  | Text s => Some s
  end.

Definition given (o : option string) : Given :=
  match o with
  | Some s => Text s
  | None => IsNull
  end.

(** The TypeError of [productData.sku] when [productData] is null. *)
Definition nullRead : Error :=
  TypeError "Cannot read properties of null (reading 'sku')".

Definition startLog (req : Request) (n : nat) : LogData :=
  {| ld_operation := Some "sync";
     ld_entityType := Some "product";
     ld_entityId := None;
     ld_message := Some ("Bulk sync started for " ++ JS.showNat n ++ " products");
     ld_details := None;
     ld_userId := Some (u_id (req_user req));
     ld_username := Some (u_username (req_user req));
     ld_level := Some "info";
     ld_source := given (sourceOf req);
     ld_ipAddress := req_ip req;
     ld_userAgent := req_userAgent req;
     ld_duration := None |}.

Definition itemLog (req : Request) (operation verb : string) (id : ObjectId)
    (productData : ProductData) : LogData :=
  {| ld_operation := Some operation;
     ld_entityType := Some "product";
     ld_entityId := Some id;
     ld_message := Some ("Product synced (" ++ verb ++ "): "
                         ++ JS.interp (pd_name productData)
                         ++ " (SKU: " ++ JS.interp (pd_sku productData) ++ ")");
     ld_details := None;
     ld_userId := Some (u_id (req_user req));
     ld_username := Some (u_username (req_user req));
     ld_level := Some "success";
     ld_source := given (sourceOf req);
     ld_ipAddress := None;
     ld_userAgent := None;
     ld_duration := None |}.

Definition errorLog (req : Request) (productData : ProductData) (error : Error) : LogData :=
  {| ld_operation := Some "error";
     ld_entityType := Some "product";
     ld_entityId := None;
     ld_message := Some ("Sync error for product SKU "
                         ++ JS.interp (pd_sku productData) ++ ": " ++ errMessage error);
     ld_details := Some (DSyncError (errMessage error) productData);
     ld_userId := Some (u_id (req_user req));
     ld_username := Some (u_username (req_user req));
     ld_level := Some "error";
     ld_source := given (sourceOf req);
     ld_ipAddress := None;
     ld_userAgent := None;
     ld_duration := None |}.

Definition summaryLog (req : Request) (results : Results) (duration : Z) : LogData :=
  {| ld_operation := Some "sync";
     ld_entityType := Some "product";
     ld_entityId := None;
     ld_message := Some ("Bulk sync completed: " ++ JS.showNat (created results)
                         ++ " created, " ++ JS.showNat (updated results)
                         ++ " updated, " ++ JS.showNat (errors results) ++ " errors");
     ld_details := Some (DSyncResults results);
     ld_userId := Some (u_id (req_user req));
     ld_username := Some (u_username (req_user req));
     ld_level := Some (if (0 <? errors results)%nat then "warning" else "success");
     ld_source := given (sourceOf req);
     ld_ipAddress := req_ip req;
     ld_userAgent := req_userAgent req;
     ld_duration := Some duration |}.

(** The [try] block of the loop body.  Its first step reads
    [productData.sku], which throws for null. *)
Definition tryItem (req : Request) (item : Item) : M State unit :=
  match item with
  | Null => throw nullRead
  | Obj productData =>
      existingProduct <- liftW (ProductModel.findOne (pd_sku productData)) ;;
      match existingProduct with
      | Some existing =>
          t <- liftW now ;;
          liftW (ProductModel.save
                   (ProductModel.assign existing productData t (sourceOf req))) ;;
          incUpdated ;;
          liftW (SyncLogModel.createLog
                   (itemLog req "update" "updated" (p_id existing) productData)) ;;
          ret tt
      | None =>
          id <- liftW newObjectId ;;
          t <- liftW now ;;
          liftW (ProductModel.save (ProductModel.create id productData t (sourceOf req))) ;;
          incCreated ;;
          liftW (SyncLogModel.createLog (itemLog req "create" "created" id productData)) ;;
          ret tt
      end
  end.

(** The [catch] block of the loop body.  The message of its audit entry
    reads [productData.sku] again, before [createLog] is called: for null
    the block itself throws. *)
Definition catchItem (req : Request) (item : Item) (error : Error) : M State unit :=
  incErrors ;;
  match item with
  | Null => throw nullRead
  | Obj productData =>
      liftW (SyncLogModel.createLog (errorLog req productData error)) ;;
      ret tt
  end.

Definition syncItem (req : Request) (item : Item) : M State unit :=
  tryCatch (tryItem req item) (catchItem req item).

(** [for (const productData of products) { ... }] *)
Fixpoint syncLoop (req : Request) (items : list Item) : M State unit :=
  match items with
  | [] => ret tt
  | item :: rest => syncItem req item ;; syncLoop req rest
  end.

(** The outer [try] block, after the array check. *)
Definition syncBody (req : Request) (items : list Item) : M State Response :=
  startTime <- liftW now ;;
  liftW (SyncLogModel.createLog (startLog req (List.length items))) ;;
  syncLoop req items ;;
  endTime <- liftW now ;;
  results <- gets snd ;;
  liftW (SyncLogModel.createLog (summaryLog req results (endTime - startTime))) ;;
  ret (SyncCompleted results (endTime - startTime)).

Definition initialResults (items : list Item) : Results :=
  mkResults 0 0 0 (List.length items).

Definition handler (req : Request) (w : World) : Response * World :=
  match body_products req with
  | None => (Failure 400 "Products must be an array", w)
  | Some items =>
      match syncBody req items (w, initialResults items) with
      | (inr response, s) => (response, fst s)
      | (inl _, s) => (Failure 500 "Server error during sync", fst s)
      end
  end.

End Sync.

(* ================================================================== *)
(** ** The log router: listing, CSV export, cleanup *)

Module Logs.

Record Query := mkQuery {
  q_page : option string;
  q_limit : option string;
  q_operation : option string;
  q_entityType : option string;
  q_level : option string;
  q_source : option string;
  q_userId : option string;
  q_startDate : option Z;      (* the instant [new Date(req.query.startDate)] *)
  q_endDate : option Z;
  q_search : option string;
  q_days : option string
}.

Record Request := mkRequest {
  query : Query;
  req_user : User;
  req_ip : option string;
  req_userAgent : option string
}.

(** The filter object that a handler builds and hands to the model. *)
Record Filter := mkFilter {
  f_operation : option string;
  f_entityType : option string;
  f_level : option string;
  f_source : option string;
  f_userId : option string;
  f_createdAt : option (option Z * option Z);     (* [$gte], [$lte] *)
  f_message : option string                       (* [$regex], options i *)
}.

(** [if (req.query.x) filter.x = req.query.x] *)
Definition whenTruthy (o : option string) : option string :=
  if JS.truthy o then o else None.

Definition dateRange (q : Query) : option (option Z * option Z) :=
  match q_startDate q, q_endDate q with
  | None, None => None
  | lo, hi => Some (lo, hi)
  end.

(** Filter construction of GET /. *)
Definition listFilter (q : Query) : Filter :=
  {| f_operation := whenTruthy (q_operation q);
     f_entityType := whenTruthy (q_entityType q);
     f_level := whenTruthy (q_level q);
     f_source := whenTruthy (q_source q);
     f_userId := whenTruthy (q_userId q);
     f_createdAt := dateRange q;
     f_message := whenTruthy (q_search q) |}.

(** Filter construction of GET /export/csv. *)
Definition exportFilter (q : Query) : Filter :=
  {| f_operation := whenTruthy (q_operation q);
     f_entityType := whenTruthy (q_entityType q);
     f_level := whenTruthy (q_level q);
     f_source := whenTruthy (q_source q);
     f_userId := None;
     f_createdAt := dateRange q;
     f_message := None |}.

(** An ObjectId in a query is a string of 24 hexadecimal digits.  A string
    of 12 characters, which some versions of the driver also read as an id,
    is not an id here. *)
Fixpoint hexValue (acc : Z) (s : string) : option Z :=
  match s with
  | EmptyString => Some acc
  | String c r =>
      match JS.digitVal c with
      | Some d => if d <? 16 then hexValue (acc * 16 + d) r else None
      | None => None
      end
  end.

Definition castObjectId (s : string) : option ObjectId :=
  if Nat.eqb (String.length s) 24 then option_map Z.to_nat (hexValue 0 s) else None.

Definition castError (f : Filter) : option Error :=
  match f_userId f with
  | Some s => match castObjectId s with
              | Some _ => None
              | None => Some (CastError "userId")
              end
  | None => None
  end.

Definition eqField (f v : option string) : bool :=
  match f, v with
  | None, _ => true
  | Some s, Some s' => String.eqb s s'
  | Some _, None => false
  end.

Definition matches (regex : string -> string -> bool) (f : Filter) (l : SyncLog) : bool :=
  eqField (f_operation f) (l_operation l)
  && eqField (f_entityType f) (l_entityType l)
  && eqField (f_level f) (Some (l_level l))
  && eqField (f_source f) (l_source l)
  && match f_userId f with
     | None => true
     | Some s => match castObjectId s, l_userId l with
                 | Some id, Some id' => Nat.eqb id id'
                 | _, _ => false
                 end
     end
  && match f_createdAt f with
     | None => true
     | Some (lo, hi) =>
         match lo with Some a => a <=? l_createdAt l | None => true end
         && match hi with Some b => l_createdAt l <=? b | None => true end
     end
  && match f_message f with
     | None => true
     | Some pattern => match l_message l with
                       | Some m => regex pattern m
                       | None => false
                       end
     end.

(** The documents that satisfy a filter, in store order. *)
Definition selected (f : Filter) (w : World) : list SyncLog :=
  filter (matches (regexI w) f) (logs w).

(** [.sort({ createdAt: -1 })]: newest first. *)
Fixpoint insertDesc (l : SyncLog) (ls : list SyncLog) : list SyncLog :=
  match ls with
  | [] => [l]
  | h :: t => if l_createdAt h <? l_createdAt l then l :: h :: t
              else h :: insertDesc l t
  end.

Definition sortDesc (ls : list SyncLog) : list SyncLog := fold_right insertDesc [] ls.

(** [.limit(n)]: zero means no limit, a negative number limits to its
    absolute value. *)
Definition applyLimit (n : Z) (ls : list SyncLog) : list SyncLog :=
  if n =? 0 then ls else firstn (Z.to_nat (Z.abs n)) ls.

Definition attach (us : list User) (l : SyncLog) : PopulatedLog :=
  mkPopulated l
    match l_userId l with
    | Some id => List.find (fun u => Nat.eqb (u_id u) id) us
    | None => None
    end.

Definition hasUserId (l : SyncLog) : bool :=
  match l_userId l with Some _ => true | None => false end.

(** [.populate('userId', ...)]: one query on the users collection when some
    entry refers to a user. *)
Definition populate (ls : list SyncLog) : M World (list PopulatedLog) :=
  if existsb hasUserId ls
  then roundTrip Users ;; us <- gets users ;; ret (map (attach us) ls)
  else ret (map (attach []) ls).

(** [SyncLog.find(filter).populate(...).sort(...).skip(skip).limit(limit)];
    the server rejects a negative skip. *)
Definition find (f : Filter) (skip limit : Z) : M World (list PopulatedLog) :=
  match castError f with
  | Some e => throw e
  | None =>
      roundTrip SyncLogs ;;
      if skip <? 0 then throw (BadValue "Skip value must be non-negative")
      else
        ls <- gets (fun w => applyLimit limit
                               (skipn (Z.to_nat skip) (sortDesc (selected f w)))) ;;
        populate ls
  end.

(** [SyncLog.countDocuments(filter)] *)
Definition countDocuments (f : Filter) : M World nat :=
  match castError f with
  | Some e => throw e
  | None => roundTrip SyncLogs ;; gets (fun w => List.length (selected f w))
  end.

(** [SyncLog.deleteMany({ createdAt: { $lt: cutoff } })], returning
    [deletedCount]; the filter is cast first, and an Invalid Date does not
    cast. *)
Definition deleteManyBefore (cutoffDate : option Z) : M World nat :=
  match cutoffDate with
  | None => throw (CastError "createdAt")
  | Some cutoff =>
      roundTrip SyncLogs ;;
      n <- gets (fun w => List.length (filter (fun l => l_createdAt l <? cutoff) (logs w))) ;;
      modify (fun w => setLogs (filter (fun l => negb (l_createdAt l <? cutoff)) (logs w))
                         w) ;;
      ret n
  end.

(** The outer [try]/[catch] of a handler of this router. *)
Definition respond (m : M World Response) (w : World) : Response * World :=
  match m w with
  | (inr response, w') => (response, w')
  | (inl _, w') => (Failure 500 "Server error", w')
  end.

(** *** GET / *)

Definition pageOf (q : Query) : Z := JS.parseIntOr (q_page q) 1.
Definition limitOf (q : Query) : Z := JS.parseIntOr (q_limit q) 50.

Definition paginate (page limit : Z) (total : nat) : Pagination :=
  {| current := page;
     pages := JS.ceilDiv (Z.of_nat total) limit;
     pg_total := total;
     hasNext := page <? JS.ceilDiv (Z.of_nat total) limit;
     hasPrev := 1 <? page |}.

Definition listHandler (req : Request) : World -> Response * World :=
  let page := pageOf (query req) in
  let limit := limitOf (query req) in
  let skip := (page - 1) * limit in
  let filter := listFilter (query req) in
  respond
    (entries <- find filter skip limit ;;
     total <- countDocuments filter ;;
     ret (LogsPage entries (paginate page limit total))).

(** *** GET /export/csv *)

Definition nl : string := String (ascii_of_nat 10) EmptyString.

Definition csvHeader : string :=
  "Date,Time,Level,Operation,Entity Type,Message,User,Source,IP Address" ++ nl.

(** [log.userId ? log.userId.username : log.username || 'System'] *)
Definition csvUser (e : PopulatedLog) : string :=
  match pl_user e with
  | Some u => u_username u
  | None => JS.orString (l_username (pl_log e)) "System"
  end.

(** The quoted message column. *)
Definition csvMessage (log : SyncLog) : string :=
  String JS.dq (JS.doubleQuotes (JS.orString (l_message log) EmptyString)
                ++ String JS.dq EmptyString).

Definition csvFields (e : PopulatedLog) : list string :=
  let log := pl_log e in
  let iso := JS.toISOString (l_createdAt log) in
  let date := JS.at_ (JS.split "T" iso) 0 in
  let time := JS.at_ (JS.split "." (JS.at_ (JS.split "T" iso) 1)) 0 in
  [ date;
    time;
    JS.orString (Some (l_level log)) EmptyString;
    JS.orString (l_operation log) EmptyString;
    JS.orString (l_entityType log) EmptyString;
    csvMessage log;
    csvUser e;
    JS.orString (l_source log) EmptyString;
    JS.orString (l_ipAddress log) EmptyString ].

Definition csvRow (e : PopulatedLog) : string := JS.join "," (csvFields e).

Definition exportLimit : Z := 5000.

Definition exportHandler (req : Request) : World -> Response * World :=
  let filter := exportFilter (query req) in
  respond
    (entries <- find filter 0 exportLimit ;;
     ret (CsvFile (csvHeader ++ JS.join nl (map csvRow entries)))).

(** *** DELETE /cleanup *)

Definition daysToKeepOf (q : Query) : Z := JS.parseIntOr (q_days q) 30.

(** [cutoffDate.setDate(cutoffDate.getDate() - daysToKeep)]; [None] is
    Invalid Date. *)
Definition cutoffDate (t daysToKeep : Z) : option Z := JS.minusDays t daysToKeep.

Definition cleanupLog (req : Request) (deletedCount : nat) (daysToKeep : Z) : LogData :=
  {| ld_operation := Some "delete";
     ld_entityType := Some "system";
     ld_entityId := None;
     ld_message := Some ("Log cleanup completed: " ++ JS.showNat deletedCount
                         ++ " logs older than " ++ JS.showZ daysToKeep
                         ++ " days were deleted");
     ld_details := Some (DCleanup deletedCount daysToKeep);
     ld_userId := Some (u_id (req_user req));
     ld_username := Some (u_username (req_user req));
     ld_level := Some "info";
     ld_source := Text "web";
     ld_ipAddress := req_ip req;
     ld_userAgent := req_userAgent req;
     ld_duration := None |}.

Definition cleanupHandler (req : Request) (w : World) : Response * World :=
  if negb (String.eqb (u_role (req_user req)) "admin")
  then (Failure 403 "Admin access required", w)
  else
    let daysToKeep := daysToKeepOf (query req) in
    respond
      (t <- now ;;
       deletedCount <- deleteManyBefore (cutoffDate t daysToKeep) ;;
       SyncLogModel.createLog (cleanupLog req deletedCount daysToKeep) ;;
       ret (CleanupCompleted deletedCount))
      w.

End Logs.

(* ================================================================== *)
(** ** The log router: single entry, user activity, statistics *)

Module LogViews.

(** The projection [.select('operation entityType level message createdAt
    userId username')] of an entry whose [userId] is populated with the
    user's username. *)
Record Activity := mkActivity {
  a_id : ObjectId;
  a_operation : option string;
  a_entityType : option string;
  a_level : string;
  a_message : option string;
  a_createdAt : Z;
  a_user : option (ObjectId * string);
  a_username : option string
}.

(** One document of the timeline aggregation. *)
Record Bucket := mkBucket {
  b_date : string;
  b_levels : list (string * nat);
  b_total : nat
}.

(** A populated user: [populate('userId', 'username email')] keeps the id
    and the two selected paths. *)
Record UserRef := mkUserRef {
  r_id : ObjectId;
  r_username : string;
  r_email : string
}.

Definition selectUser (u : User) : UserRef :=
  mkUserRef (u_id u) (u_username u) (u_email u).

(** [LogFound log user] is the body [{ log }] whose [userId] path holds
    [user]. *)
Inductive Response :=
| LogFound (log : SyncLog) (user : option UserRef)
| UserLogs (entries : list SyncLog) (pagination : Pagination)
| Overview (total today yesterday : nat) (change : Z)
           (operations : list (option string * nat)) (levels : list (string * nat))
           (recentActivity : list Activity)
| Timeline (timeline : list Bucket)
| Problem (status : nat) (message : string).

Definition respond (m : M World Response) (w : World) : Response * World :=
  match m w with
  | (inr response, w') => (response, w')
  | (inl _, w') => (Problem 500 "Server error", w')
  end.

(** *** GET /:id *)

(** [SyncLog.findById(id)]: the id is cast first. *)
Definition findById (id : string) : M World (option SyncLog) :=
  match Logs.castObjectId id with
  | None => throw (CastError "_id")
  | Some oid =>
      roundTrip SyncLogs ;;
      gets (fun w => find (fun l => Nat.eqb (l_id l) oid) (logs w))
  end.

(** [.populate('userId', 'username email')] of one document: one query on
    the users collection when the entry refers to a user; the path is null
    when no user has that id. *)
Definition populateOne (l : SyncLog) : M World (option UserRef) :=
  match l_userId l with
  | Some id =>
      roundTrip Users ;;
      us <- gets users ;;
      ret (option_map selectUser (List.find (fun u => Nat.eqb (u_id u) id) us))
  | None => ret None
  end.

Definition logHandler (id : string) : World -> Response * World :=
  respond
    (found <- findById id ;;
     match found with
     | None => ret (Problem 404 "Log not found")
     | Some l => user <- populateOne l ;; ret (LogFound l user)
     end).

(** *** GET /user/:userId *)




(** *** GET /stats/overview *)

(** [Promise.all([a, b])]: both queries are sent; the result is an error as
    soon as one of them fails. *)
Definition both {A B} (a : M World A) (b : M World B) : M World (A * B) :=
  fun w =>
    let '(ra, w1) := a w in
    let '(rb, w2) := b w1 in
    (match ra, rb with
     | inr x, inr y => inr (x, y)
     | inl e, _ => inl e
     | inr _, inl e => inl e
     end, w2).

(** [today.setHours(0, 0, 0, 0)], in a server time zone that is UTC. *)
Definition startOfDay (t : Z) : Z := t - t mod JS.msPerDay.

(** [SyncLog.countDocuments({ createdAt: { $gte: lo, $lt: hi } })], each
    bound optional. *)
Definition inWindow (lo hi : option Z) (l : SyncLog) : bool :=
  match lo with Some a => a <=? l_createdAt l | None => true end
  && match hi with Some b => l_createdAt l <? b | None => true end.

Definition countWindow (lo hi : option Z) : M World nat :=
  roundTrip SyncLogs ;;
  gets (fun w => List.length (filter (inWindow lo hi) (logs w))).

(** [$group: { _id: key, count: { $sum: n } }]: the groups in order of first
    appearance. *)
Fixpoint addTo {K} (eqb : K -> K -> bool) (k : K) (n : nat) (groups : list (K * nat))
  : list (K * nat) :=
  match groups with
  | [] => [(k, n)]
  | (k', c) :: rest =>
      if eqb k' k then (k', c + n)%nat :: rest else (k', c) :: addTo eqb k n rest
  end.

Definition countBy {A K} (eqb : K -> K -> bool) (key : A -> K) (l : list A)
  : list (K * nat) :=
  fold_left (fun groups x => addTo eqb (key x) 1 groups) l [].

(** [$sort: { count: -1 }] *)
Fixpoint insertByCount {K} (g : K * nat) (gs : list (K * nat)) : list (K * nat) :=
  match gs with
  | [] => [g]
  | h :: t => if (snd h <? snd g)%nat then g :: h :: t else h :: insertByCount g t
  end.

Definition sortByCount {K} (gs : list (K * nat)) : list (K * nat) :=
  fold_right insertByCount [] gs.

Definition optEqb (a b : option string) : bool :=
  match a, b with
  | Some x, Some y => String.eqb x y
  | None, None => true
  | _, _ => false
  end.

Definition groupOperations : M World (list (option string * nat)) :=
  roundTrip SyncLogs ;;
  gets (fun w => sortByCount (countBy optEqb l_operation (logs w))).

Definition groupLevels : M World (list (string * nat)) :=
  roundTrip SyncLogs ;;
  gets (fun w => sortByCount (countBy String.eqb l_level (logs w))).

Definition noFilter : Logs.Filter := Logs.mkFilter None None None None None None None.

Definition project (e : PopulatedLog) : Activity :=
  let l := pl_log e in
  {| a_id := l_id l;
     a_operation := l_operation l;
     a_entityType := l_entityType l;
     a_level := l_level l;
     a_message := l_message l;
     a_createdAt := l_createdAt l;
     a_user := option_map (fun u => (u_id u, u_username u)) (pl_user e);
     a_username := l_username l |}.

(** The ten newest entries, populated and projected. *)
Definition recentActivity : M World (list Activity) :=
  entries <- Logs.find noFilter 0 10 ;;
  ret (map project entries).

Definition overviewHandler : World -> Response * World :=
  respond
    (t <- now ;;
     let today := startOfDay t in
     let yesterday := today - JS.msPerDay in
     all <- both (countWindow None None)
              (both (countWindow (Some today) None)
                 (both (countWindow (Some yesterday) (Some today))
                    (both groupOperations (both groupLevels recentActivity)))) ;;
     let '(totalLogs, (todayLogs, (yesterdayLogs, (operationStats, (levelStats, recent))))) :=
       all in
     ret (Overview totalLogs todayLogs yesterdayLogs
            (Z.of_nat todayLogs - Z.of_nat yesterdayLogs)
            operationStats levelStats recent)).

(** *** GET /stats/timeline *)

(** [$dateToString: { format: '%Y-%m-%d', date: '$createdAt' }] *)
Definition dateOf (l : SyncLog) : string :=
  JS.at_ (JS.split "T" (JS.toISOString (l_createdAt l))) 0.

Definition pairEqb (a b : string * string) : bool :=
  String.eqb (fst a) (fst b) && String.eqb (snd a) (snd b).

(** The second [$group]: one document per date, the level counts pushed in
    the order the first stage delivers them. *)
Fixpoint pushLevel (date level : string) (count : nat) (bs : list Bucket) : list Bucket :=
  match bs with
  | [] => [mkBucket date [(level, count)] count]
  | b :: rest =>
      if String.eqb (b_date b) date
      then mkBucket (b_date b) (b_levels b ++ [(level, count)]) (b_total b + count) :: rest
      else b :: pushLevel date level count rest
  end.

Definition byDate (groups : list ((string * string) * nat)) : list Bucket :=
  fold_left (fun bs g => pushLevel (fst (fst g)) (snd (fst g)) (snd g) bs) groups [].

(** [$sort: { _id: 1 }] *)
Fixpoint insertByDate (b : Bucket) (bs : list Bucket) : list Bucket :=
  match bs with
  | [] => [b]
  | h :: t => if String.leb (b_date b) (b_date h) then b :: h :: t
              else h :: insertByDate b t
  end.

Definition sortByDate (bs : list Bucket) : list Bucket := fold_right insertByDate [] bs.

Definition daysOf (q : Logs.Query) : Z := JS.parseIntOr (Logs.q_days q) 7.

(** [startDate.setDate(startDate.getDate() - days)] then
    [startDate.setHours(0, 0, 0, 0)], as the [$match] stage receives it.  The
    stages of an aggregation are not cast: an Invalid Date reaches the driver,
    which writes its time value NaN as 0, the epoch. *)
Definition timelineStart (t days : Z) : Z :=
  match JS.minusDays t days with
  | Some d => startOfDay d
  | None => 0
  end.

Definition timelineOf (start : Z) (ls : list SyncLog) : list Bucket :=
  sortByDate
    (byDate (countBy pairEqb (fun l => (dateOf l, l_level l))
               (filter (inWindow (Some start) None) ls))).

Definition timelineHandler (q : Logs.Query) : World -> Response * World :=
  respond
    (t <- now ;;
     let startDate := timelineStart t (daysOf q) in
     roundTrip SyncLogs ;;
     timeline <- gets (fun w => timelineOf startDate (logs w)) ;;
     ret (Timeline timeline)).

End LogViews.

(* ================================================================== *)
(** ** The product router: single product, categories, vendors *)

Module Catalog.

Inductive Response :=
| ProductFound (product : Product)
| Categories (categories : list string)
| Vendors (vendors : list string)
| Problem (status : nat) (message : string).

Definition respond (m : M World Response) (w : World) : Response * World :=
  match m w with
  | (inr response, w') => (response, w')
  | (inl _, w') => (Problem 500 "Server error", w')
  end.

(** *** GET /:id *)

(** [Product.findById(id)]: the id is cast first. *)
Definition findById (id : string) : M World (option Product) :=
  match Logs.castObjectId id with
  | None => throw (CastError "_id")
  | Some oid =>
      roundTrip Products ;;
      gets (fun w => find (fun p => Nat.eqb (p_id p) oid) (products w))
  end.

Definition productHandler (id : string) : World -> Response * World :=
  respond
    (found <- findById id ;;
     match found with
     | None => ret (Problem 404 "Product not found")
     | Some product => ret (ProductFound product)
     end).

(** *** GET /categories/list and GET /vendors/list *)

(** [Product.distinct(path)]: the values of the documents that have the
    path, each value once. *)
Definition distinct (path : Product -> option string) : M World (list string) :=
  roundTrip Products ;;
  gets (fun w => nodup string_dec
                   (flat_map (fun p => match path p with Some v => [v] | None => [] end)
                      (products w))).

Definition categoriesHandler : World -> Response * World :=
  respond (categories <- distinct p_category ;; ret (Categories categories)).

(** [vendors.filter(v => v)] drops the empty string. *)
Definition vendorsHandler : World -> Response * World :=
  respond
    (vendors <- distinct p_vendor ;;
     ret (Vendors (filter (fun v => JS.truthy (Some v)) vendors))).

End Catalog.

(* ================================================================== *)
(** ** Vocabulary of the statements *)

(** The audit log store answers every round trip. *)
Definition logStoreUp (w : World) : Prop :=
  forall n, faults w SyncLogs n = false.

(** The [source] of a sync request is one that the SyncLog schema accepts. *)
Definition logSourceOk (req : Sync.Request) : Prop :=
  optionalEnum SyncLogModel.sourceEnum (Sync.sourceOf req) = true.

(** A request of the log router with its [days] parameter replaced. *)
Definition withDays (d : option string) (req : Logs.Request) : Logs.Request :=
  let q := Logs.query req in
  Logs.mkRequest
    (Logs.mkQuery (Logs.q_page q) (Logs.q_limit q) (Logs.q_operation q)
       (Logs.q_entityType q) (Logs.q_level q) (Logs.q_source q) (Logs.q_userId q)
       (Logs.q_startDate q) (Logs.q_endDate q) (Logs.q_search q) d)
    (Logs.req_user req) (Logs.req_ip req) (Logs.req_userAgent req).



(** An entry is accepted by the SyncLog schema: the boolean form of
    [SyncLogModel.pathErrors] being empty. *)
Definition wellFormedLog (d : LogData) : bool :=
  requiredEnum SyncLogModel.operationEnum (ld_operation d)
  && requiredEnum SyncLogModel.entityTypeEnum (ld_entityType d)
  && JS.truthy (ld_message d)
  && inEnum SyncLogModel.levelEnum (orDefault (ld_level d) "info")
  && optionalEnum SyncLogModel.sourceEnum (SyncLogModel.sourceOrDefault (ld_source d)).

(** The unique-index conflict that [ProductModel.save] looks for. *)
Definition duplicateOf (p q : Product) : bool :=
  ProductModel.skuMatches (p_sku p) q && negb (Nat.eqb (p_id q) (p_id p)).

(** One of [created], [updated] went up by one. *)
Definition counted (r r' : Results) : Prop :=
  total r' = total r /\ errors r' = errors r
  /\ (created r' + updated r' = S (created r + updated r))%nat.

Definition addError (r : Results) : Results :=
  mkResults (created r) (updated r) (S (errors r)) (total r).

(** Only product round trips happened between [w] and [w']: the audit log
    and the store's behaviour are untouched. *)
Definition logsUntouched (w w' : World) : Prop :=
  logs w' = logs w /\ faults w' = faults w
  /\ calls w' SyncLogs = calls w SyncLogs.

(** An entry written for one item: its operation is create, update or
    error, never sync. *)
Definition itemEntry (l : SyncLog) : Prop :=
  l_operation l = Some "create" \/ l_operation l = Some "update"
  \/ l_operation l = Some "error".

(** The number of increments the three counters have received. *)
Definition counters (r : Results) : nat := (created r + updated r + errors r)%nat.

(** The level of the summary entry. *)
Definition levelFor (r : Results) : string :=
  if (0 <? errors r)%nat then "warning" else "success".

(** The three ways the [try] block of the loop can end: the item is synced
    and logged; it is rejected before anything is persisted or counted; or
    it is persisted and counted but its audit entry cannot be written. *)
Inductive TryOutcome (req : Sync.Request) (pd : ProductData) (w : World) (r : Results)
  : (Error + unit) * Sync.State -> Prop :=
| TrySynced (w1 : World) (r1 : Results) (operation verb : string) (id : ObjectId) :
    logsUntouched w w1 -> counted r r1 ->
    (operation = "create" /\ verb = "created" \/ operation = "update" /\ verb = "updated") ->
    wellFormedLog (Sync.itemLog req operation verb id pd) = true ->
    faults w SyncLogs (calls w SyncLogs) = false ->
    TryOutcome req pd w r
      (inr tt,
       (setLogs (logs w1 ++ [SyncLogModel.create (nextId w1)
                               (Sync.itemLog req operation verb id pd) (clock w1)])
                (tick SyncLogs (bumpId w1)), r1))
| TryRejected (e : Error) (w1 : World) :
    logsUntouched w w1 -> products w1 = products w ->
    TryOutcome req pd w r (inl e, (w1, r))
| TryUnlogged (e : Error) (w1 : World) (r1 : Results) :
    logs w1 = logs w -> faults w1 = faults w -> counted r r1 ->
    optionalEnum SyncLogModel.sourceEnum (Sync.sourceOf req) = false
      \/ faults w SyncLogs (calls w SyncLogs) = true ->
    TryOutcome req pd w r (inl e, (w1, r1)).

(** The handler answers with a result summary. *)
Definition returnsSummary (req : Sync.Request) (w : World) : Prop :=
  exists results duration w',
    Sync.handler req w = (SyncCompleted results duration, w').





(** The entries that the export renders: the newest 5000 of its selection. *)
Definition exported (q : Logs.Query) (w : World) : list PopulatedLog :=
  map (Logs.attach (users w))
      (firstn 5000 (Logs.sortDesc (Logs.selected (Logs.exportFilter q) w))).

Definition quote : string := String JS.dq EmptyString.

(** The message of the specification's CSV scenario and its rendering. *)
Definition heSaidHi : string := "He said " ++ quote ++ "hi" ++ quote.
Definition heSaidHiField : string :=
  quote ++ "He said " ++ quote ++ quote ++ "hi" ++ quote ++ quote ++ quote.

(** The reader's side of standard CSV quoting: the text of a quoted field,
    every doubled quote read as one; [None] when the text is not a
    well-formed quoted field. *)
Fixpoint unescape (s : string) : option string :=
  match s with
  | EmptyString => None
  | String c r =>
      if Ascii.eqb c JS.dq then
        match r with
        | EmptyString => Some EmptyString
        | String c' r' =>
            if Ascii.eqb c' JS.dq then option_map (String JS.dq) (unescape r') else None
        end
      else option_map (String c) (unescape r)
  end.

Definition readQuoted (s : string) : option string :=
  match s with
  | String c r => if Ascii.eqb c JS.dq then unescape r else None
  | EmptyString => None
  end.

(** The reader's side of a CSV row: the columns are the texts between the
    commas; a column that opens with a double quote runs to its closing
    quote, commas included, with every doubled quote read as one.  [quoted]
    says whether the reader is inside a quoted column and [column] is what
    it has read of the current column. *)
Fixpoint readRow (quoted : bool) (column : string) (s : string) : list string :=
  match s with
  | EmptyString => [column]
  | String c r =>
      if quoted then
        if Ascii.eqb c JS.dq then
          match r with
          | String c' r' =>
              if Ascii.eqb c' JS.dq then readRow true (column ++ quote) r'
              else readRow false column r
          | EmptyString => [column]
          end
        else readRow true (column ++ String c EmptyString) r
      else if Ascii.eqb c "," then column :: readRow false EmptyString r
      else if (Ascii.eqb c JS.dq && String.eqb column EmptyString)%bool
           then readRow true EmptyString r
           else readRow false (column ++ String c EmptyString) r
  end.

Definition columns (row : string) : list string := readRow false EmptyString row.

(* ================================================================== *)
(** ** Concrete stores and requests *)

Definition admin : User := mkUser 1%nat "root" "root@example.org" "admin".
Definition clerk : User := mkUser 2%nat "clerk" "clerk@example.org" "user".

Definition day : Z := JS.msPerDay.

(** 2024-02-29T12:34:56.789Z *)
Definition noon : Z := 1709210096789.

(** The store's answer to a pattern without metacharacters: the text
    contains the pattern, letter case ignored. *)
Definition lower (c : ascii) : ascii :=
  let n := nat_of_ascii c in
  if ((65 <=? n) && (n <=? 90))%nat then ascii_of_nat (n + 32) else c.

Fixpoint prefixI (p s : string) : bool :=
  match p, s with
  | EmptyString, _ => true
  | String a p', String b s' => Ascii.eqb (lower a) (lower b) && prefixI p' s'
  | String _ _, EmptyString => false
  end.

Fixpoint containsI (p s : string) : bool :=
  prefixI p s
  || match s with
     | String _ s' => containsI p s'
     | EmptyString => false
     end.

Definition entryAt (id : ObjectId) (level message : string) (userId : option ObjectId)
    (username : option string) (t : Z) : SyncLog :=
  mkSyncLog id (Some "sync") (Some "product") None (Some message) None userId username
            level (Some "api") None None None "success" t.

(** A store that answers every call, each within 3 ms. *)
Definition storeWith (ps : list Product) (ls : list SyncLog) : World :=
  mkWorld ps ls [admin; clerk] 100%nat noon (fun _ => 0%nat) (fun _ _ => false)
          (fun _ _ => 3%nat) containsI.

Definition emptyStore : World := storeWith [] [].

(** The same empty store, except that its second audit write fails. *)
Definition storeWithGlitch : World :=
  mkWorld [] [] [admin; clerk] 100%nat noon (fun _ => 0%nat)
          (fun c n => match c with SyncLogs => Nat.eqb n 1 | _ => false end)
          (fun _ _ => 3%nat) containsI.

(** The same empty store, going down right after its first audit write. *)
Definition storeGoingDown : World :=
  mkWorld [] [] [admin; clerk] 100%nat noon (fun _ => 0%nat)
          (fun c n => match c with SyncLogs => Nat.leb 1 n | _ => true end)
          (fun _ _ => 3%nat) containsI.

(** The audit store of the scenarios: three entries, 45 days, two days and
    one day old. *)
Definition oldEntry : SyncLog :=
  entryAt 10%nat "info" "Bulk sync started for 1 products" (Some 1%nat) (Some "root")
          (noon - 45 * day).
Definition quotedEntry : SyncLog := entryAt 11%nat "error" heSaidHi None None (noon - 2 * day).
Definition clerkEntry : SyncLog :=
  entryAt 12%nat "info" "Log cleanup completed" (Some 2%nat) (Some "clerk") (noon - 1 * day).

Definition auditStore : World := storeWith [] [oldEntry; quotedEntry; clerkEntry].

(** A user whose name holds a comma, which the registration accepts, and a
    store whose one entry refers to that user. *)
Definition smith : User := mkUser 3%nat "Smith, John" "smith@example.org" "user".

Definition smithEntry : SyncLog :=
  entryAt 13%nat "info" "Log cleanup completed" (Some 3%nat) (Some "Smith, John")
          (noon - 1 * day).

Definition smithStore : World :=
  mkWorld [] [smithEntry] [admin; clerk; smith] 100%nat noon (fun _ => 0%nat)
          (fun _ _ => false) (fun _ _ => 3%nat) containsI.

(** The row that the export of [smithStore] produces. *)
Definition smithRow : string :=
  "2024-02-28,12:34:56,info,sync,product," ++ quote ++ "Log cleanup completed" ++ quote
  ++ ",Smith, John,api,".

(** The same audit store, except that its second audit call fails. *)
Definition auditStoreWithGlitch : World :=
  mkWorld [] [oldEntry; quotedEntry; clerkEntry] [admin; clerk] 100%nat noon
          (fun _ => 0%nat)
          (fun c n => match c with SyncLogs => Nat.eqb n 1 | _ => false end)
          (fun _ _ => 3%nat) containsI.

Definition widget : ProductData :=
  mkProductData (Some "Widget") (Some "A1") None (Some (999 # 100)%Q) (Some "X")
                (Some (5 # 1)%Q) None None.

Definition noSku : ProductData :=
  mkProductData (Some "NoSku") None None None None None None None.

(** A batch of objects, with a source text or without the source key. *)
Definition syncRequest (source : option string) (items : list ProductData) : Sync.Request :=
  Sync.mkRequest (Some (map Obj items))
                 (match source with Some s => Text s | None => Absent end)
                 admin (Some "10.0.0.1") None.

(** The batch [null, widget], without a source key. *)
Definition nullThenWidget : Sync.Request :=
  Sync.mkRequest (Some [Null; Obj widget]) Absent admin (Some "10.0.0.1") None.

(** A batch of one widget whose source is the JSON value null. *)
Definition nullSourceRequest : Sync.Request :=
  Sync.mkRequest (Some [Obj widget]) IsNull admin (Some "10.0.0.1") None.

Definition noQuery : Logs.Query :=
  Logs.mkQuery None None None None None None None None None None None.

Definition logRequest (u : User) (q : Logs.Query) : Logs.Request :=
  Logs.mkRequest q u (Some "10.0.0.1") None.

(** [?userId=<the admin's id>], [?search=cleanup], [?page=2&limit=2]. *)
Definition byUser : Logs.Query :=
  Logs.mkQuery None None None None None None (Some "000000000000000000000001")
               None None None None.
Definition bySearch : Logs.Query :=
  Logs.mkQuery None None None None None None None None None (Some "cleanup") None.


(** The text that the export of [auditStore] produces. *)
Definition auditCsv : string :=
  Logs.csvHeader
  ++ "2024-02-28,12:34:56,info,sync,product," ++ quote ++ "Log cleanup completed" ++ quote
  ++ ",clerk,api," ++ Logs.nl
  ++ "2024-02-27,12:34:56,error,sync,product," ++ heSaidHiField ++ ",System,api," ++ Logs.nl
  ++ "2024-01-15,12:34:56,info,sync,product," ++ quote
  ++ "Bulk sync started for 1 products" ++ quote ++ ",root,api,".

(* ================================================================== *)
(** ** Vocabulary of the further properties *)

(** A product write that the sync loop can make between the worlds [w] and
    [w1]: the document passed validation and the unique index, carries the
    request's source, and is either a new document with a fresh id or the
    new version of a stored one. *)
Definition validWrite (req : Sync.Request) (w w1 : World) (p : Product) : Prop :=
  ProductModel.pathErrors p = []
  /\ existsb (duplicateOf p) (products w) = false
  /\ p_syncSource p = Sync.sourceOf req
  /\ ((nextId w <= p_id p < nextId w1)%nat
      \/ exists ex, In ex (products w) /\ p_id ex = p_id p).

(** The effect of one piece of the handler on the product collection:
    nothing, or one valid write. *)
Definition productStep (req : Sync.Request) (w w1 : World) : Prop :=
  (nextId w <= nextId w1)%nat
  /\ faults w1 = faults w
  /\ (products w1 = products w
      \/ exists p, validWrite req w w1 p
                   /\ products w1 = ProductModel.upsert p (products w)).

Inductive productSteps (req : Sync.Request) : World -> World -> Prop :=
| StepsDone (w : World) : productSteps req w w
| StepsNext (w w1 w2 : World) :
    productStep req w w1 -> productSteps req w1 w2 -> productSteps req w w2.

(** The product collection is well formed: ids and skus are unique, every id
    is below the id counter, and every document passes the schema. *)
Definition storeOk (w : World) : Prop :=
  NoDup (map p_id (products w))
  /\ NoDup (map p_sku (products w))
  /\ Forall (fun p => (p_id p < nextId w)%nat) (products w)
  /\ Forall (fun p => ProductModel.pathErrors p = []) (products w).

(** A store that holds the widget, as an earlier sync left it. *)
Definition widgetInStock : Product := ProductModel.create 7%nat widget noon (Some "api").

Definition stockedStore : World := storeWith [widgetInStock] [].


(** Every collection of the store answers every round trip. *)
Definition healthy (w : World) : Prop := forall c n, faults w c n = false.




(** The sum of the counts of a list of groups. *)
Definition tally {K} (gs : list (K * nat)) : nat := list_sum (map snd gs).

(** The counts of the groups whose key satisfies [sel]. *)
Definition share {K} (sel : K -> bool) (gs : list (K * nat)) : nat :=
  tally (filter (fun g => sel (fst g)) gs).

(** Groups in order of decreasing count. *)
Definition descending {K} (gs : list (K * nat)) : Prop :=
  StronglySorted (fun a b => (snd b <= snd a)%nat) gs.

(** Entries in order of decreasing creation time. *)
Definition newestFirst (ls : list SyncLog) : Prop :=
  StronglySorted (fun a b => l_createdAt b <= l_createdAt a) ls.


(** The totals of the buckets of one date. *)
Definition dayTotal (d : string) (bs : list LogViews.Bucket) : nat :=
  list_sum (map LogViews.b_total
              (filter (fun b => String.eqb (LogViews.b_date b) d) bs)).

(** Buckets in strictly increasing order of their dates. *)
Definition ascendingDates (bs : list LogViews.Bucket) : Prop :=
  StronglySorted
    (fun a b => String.ltb (LogViews.b_date a) (LogViews.b_date b) = true) bs.

(** The invariant of the second [$group] stage. *)
Definition bucketOk (b : LogViews.Bucket) : Prop :=
  LogViews.b_total b = tally (LogViews.b_levels b) /\ (1 <= LogViews.b_total b)%nat.

(* ================================================================== *)
(** * Properties *)

Ltac run :=
  unfold now, newObjectId, roundTrip;
  unfold bind, ret, throw, tryCatch, gets, modify.

(** ** The JavaScript primitives on samples *)

Example parseInt_samples :
  map JS.parseInt ["42"; " -7x"; "0x1f"; "abc"; "0.5"; "-0"; "+"]
  = [Some 42; Some (-7); Some 31; None; Some 0; Some 0; None].
Proof. reflexivity. Qed.

(** The no-break space U+00A0 is white space for [parseInt] and [trim]. *)
Example white_space_samples :
  JS.parseInt (String (ascii_of_nat 160) "-1") = Some (-1)
  /\ JS.parseInt (String (ascii_of_nat 160) "0") = Some 0
  /\ JS.trim (String (ascii_of_nat 160) ("A1" ++ String (ascii_of_nat 160) " ")) = "A1".
Proof. repeat split; vm_compute; reflexivity. Qed.

(** A date leaves the range of Date 100 000 000 days from the epoch. *)
Example minusDays_samples :
  JS.minusDays 1709210096789 30 = Some 1706618096789
  /\ JS.minusDays 1709210096789 200000000 = None
  /\ JS.minusDays 1709210096789 (-200000000) = None.
Proof. repeat split; vm_compute; reflexivity. Qed.

Example toISOString_samples :
  map JS.toISOString [0; 1709210096789; 951782400000]
  = ["1970-01-01T00:00:00.000Z"; "2024-02-29T12:34:56.789Z"; "2000-02-29T00:00:00.000Z"].
Proof. vm_compute. reflexivity. Qed.

Example split_samples :
  JS.split "T" "2024-02-29T12:34:56.789Z" = ["2024-02-29"; "12:34:56.789Z"].
Proof. reflexivity. Qed.

(** ** Running the store operations *)

Lemma check_nil ok path : check ok path = [] <-> ok = true.
Proof. destruct ok; simpl; split; congruence. Qed.

Lemma logPathErrors_nil id d t :
  SyncLogModel.pathErrors (SyncLogModel.create id d t) = [] <-> wellFormedLog d = true.
Proof.
  unfold SyncLogModel.pathErrors, wellFormedLog, SyncLogModel.create.
  cbn [l_operation l_entityType l_message l_level l_source l_status].
  destruct (requiredEnum SyncLogModel.operationEnum (ld_operation d)),
           (requiredEnum SyncLogModel.entityTypeEnum (ld_entityType d)),
           (JS.truthy (ld_message d)),
           (inEnum SyncLogModel.levelEnum (orDefault (ld_level d) "info")),
           (optionalEnum SyncLogModel.sourceEnum (SyncLogModel.sourceOrDefault (ld_source d)));
    cbn; split; congruence.
Qed.

(** What [createLog] does when the entry validates and the store answers. *)
Lemma createLog_ok d w :
  wellFormedLog d = true ->
  faults w SyncLogs (calls w SyncLogs) = false ->
  SyncLogModel.createLog d w =
    (inr (SyncLogModel.create (nextId w) d (clock w)),
     setLogs (logs w ++ [SyncLogModel.create (nextId w) d (clock w)])
             (tick SyncLogs (bumpId w))).
Proof.
  intros Hwf Hup. apply (logPathErrors_nil (nextId w) d (clock w)) in Hwf.
  unfold SyncLogModel.createLog. run. cbn [bumpId clock nextId].
  rewrite Hwf. cbn. rewrite Hup. reflexivity.
Qed.

(** [createLog] never touches the products, and either appends exactly the
    new entry or leaves the log alone and throws. *)
Lemma createLog_cases d w :
  (exists log, SyncLogModel.createLog d w =
     (inr log, setLogs (logs w ++ [log]) (tick SyncLogs (bumpId w)))
     /\ log = SyncLogModel.create (nextId w) d (clock w)
     /\ wellFormedLog d = true /\ faults w SyncLogs (calls w SyncLogs) = false)
  \/ (exists e w', SyncLogModel.createLog d w = (inl e, w')
        /\ logs w' = logs w /\ products w' = products w /\ faults w' = faults w
        /\ (wellFormedLog d = false \/ faults w SyncLogs (calls w SyncLogs) = true)).
Proof.
  destruct (wellFormedLog d) eqn:Hwf.
  - destruct (faults w SyncLogs (calls w SyncLogs)) eqn:Hup.
    + right. apply (logPathErrors_nil (nextId w) d (clock w)) in Hwf.
      unfold SyncLogModel.createLog. run. cbn [bumpId clock nextId].
      rewrite Hwf. cbn. rewrite Hup. eexists _, _. split; [reflexivity|]. cbn. auto.
    + left. eexists. split; [apply createLog_ok; auto|]. auto.
  - right. assert (H : SyncLogModel.pathErrors (SyncLogModel.create (nextId w) d (clock w)) <> []).
    { intro H. apply logPathErrors_nil in H. congruence. }
    unfold SyncLogModel.createLog. run. cbn [bumpId clock nextId].
    destruct (SyncLogModel.pathErrors _); [congruence|].
    eexists _, _. split; [reflexivity|]. cbn. auto.
Qed.

(** ** Retention *)

(** C9.  For every actor whose role is not admin, DELETE /cleanup answers
    403 "Admin access required" and has no side effect: the world after the
    call is the world before it, so no log entry is deleted and no audit
    entry is created. *)
Theorem cleanup_requires_admin (req : Logs.Request) (w : World) :
  u_role (Logs.req_user req) <> "admin" ->
  Logs.cleanupHandler req w = (Failure 403 "Admin access required", w).
Proof.
  intros Hrole. unfold Logs.cleanupHandler.
  destruct (String.eqb (u_role (Logs.req_user req)) "admin") eqn:E.
  - apply String.eqb_eq in E. contradiction.
  - reflexivity.
Qed.

Lemma cleanup_requires_admin_witness :
  u_role (Logs.req_user (logRequest clerk noQuery)) <> "admin"
  /\ Logs.cleanupHandler (logRequest clerk noQuery) auditStore
     = (Failure 403 "Admin access required", auditStore).
Proof.
  split; [discriminate|].
  apply (cleanup_requires_admin (logRequest clerk noQuery) auditStore). discriminate.
Defined.


Lemma cutoffDate_some t D cutoff :
  Logs.cutoffDate t D = Some cutoff <->
  cutoff = t - D * JS.msPerDay /\ Z.abs cutoff <= JS.maxTime.
Proof.
  unfold Logs.cutoffDate, JS.minusDays, JS.timeClip.
  destruct (Z.leb_spec (Z.abs (t - D * JS.msPerDay)) JS.maxTime); split.
  - intros [= <-]. split; [reflexivity | assumption].
  - intros [-> _]. reflexivity.
  - discriminate.
  - intros [-> ?]. lia.
Qed.

Lemma cutoffDate_none t D :
  Logs.cutoffDate t D = None <-> JS.maxTime < Z.abs (t - D * JS.msPerDay).
Proof.
  unfold Logs.cutoffDate, JS.minusDays, JS.timeClip.
  destruct (Z.leb_spec (Z.abs (t - D * JS.msPerDay)) JS.maxTime); split;
    try discriminate; try reflexivity; lia.
Qed.

(** When the cutoff is not a date, the purge fails before any store call. *)
Lemma cleanup_invalid_date (req : Logs.Request) (w : World) :
  u_role (Logs.req_user req) = "admin" ->
  Logs.cutoffDate (clock w) (Logs.daysToKeepOf (Logs.query req)) = None ->
  Logs.cleanupHandler req w = (Failure 500 "Server error", w).
Proof.
  intros Hadmin Hc. unfold Logs.cleanupHandler. rewrite Hadmin, String.eqb_refl. cbn [negb].
  unfold Logs.respond. run. cbn [clock]. rewrite Hc. reflexivity.
Qed.


Lemma cleanup_keeps (req : Logs.Request) (w : World) (l : SyncLog) :
  In l (logs w) ->
  clock w - Logs.daysToKeepOf (Logs.query req) * JS.msPerDay <= l_createdAt l ->
  In l (logs (snd (Logs.cleanupHandler req w))).
Proof.
  intros Hin Hnew. unfold Logs.cleanupHandler.
  destruct (negb _); [exact Hin|].
  unfold Logs.respond. unfold bind at 1. unfold now, gets at 1.
  destruct (Logs.cutoffDate (clock w) (Logs.daysToKeepOf (Logs.query req)))
    as [cutoff|] eqn:Hc; [|exact Hin].
  apply cutoffDate_some in Hc. destruct Hc as [Hc _]. rewrite <- Hc in Hnew.
  unfold Logs.deleteManyBefore. run.
  destruct (faults w SyncLogs (calls w SyncLogs)); [exact Hin|].
  match goal with |- context [SyncLogModel.createLog ?d ?w1] =>
    assert (Hk : In l (logs w1));
    [| destruct (createLog_cases d w1) as [(log & Hrun & _) | (e & w' & Hrun & Hlogs & _)];
       rewrite Hrun; cbn [snd logs setLogs] ]
  end.
  - cbn. apply filter_In. split; [exact Hin|]. apply negb_true_iff, Z.ltb_ge. exact Hnew.
  - apply in_or_app. left. exact Hk.
  - rewrite Hlogs. exact Hk.
Qed.

Lemma parseIntOr_falsy (s : string) (d : Z) :
  JS.parseInt s = None \/ JS.parseInt s = Some 0 -> JS.parseIntOr (Some s) d = d.
Proof. unfold JS.parseIntOr, JS.interp. intros [-> | ->]; reflexivity. Qed.

(** C10.  When the [days] parameter parses to 0 or does not parse, the
    cleanup keeps the 30-day default: the request is handled exactly as the
    same request without the parameter, or with days=30, and every entry
    that is not older than 30 days is still in the log afterwards, so days=0
    cannot empty the log. *)
Theorem cleanup_zero_days_is_default (req : Logs.Request) (s : string) (w : World) :
  JS.parseInt s = None \/ JS.parseInt s = Some 0 ->
  Logs.daysToKeepOf (Logs.query (withDays (Some s) req)) = 30
  /\ Logs.cleanupHandler (withDays (Some s) req) w
     = Logs.cleanupHandler (withDays None req) w
  /\ Logs.cleanupHandler (withDays (Some s) req) w
     = Logs.cleanupHandler (withDays (Some "30") req) w
  /\ (forall l, In l (logs w) -> clock w - 30 * JS.msPerDay <= l_createdAt l ->
        In l (logs (snd (Logs.cleanupHandler (withDays (Some s) req) w)))).
Proof.
  intros Hs.
  assert (Hd : Logs.daysToKeepOf (Logs.query (withDays (Some s) req)) = 30).
  { unfold Logs.daysToKeepOf, withDays; cbn [Logs.query Logs.q_days].
    apply parseIntOr_falsy, Hs. }
  split; [exact Hd|]. split; [|split].
  - unfold Logs.cleanupHandler. rewrite Hd. reflexivity.
  - unfold Logs.cleanupHandler. rewrite Hd. reflexivity.
  - intros l Hin Hnew. apply cleanup_keeps; [exact Hin|]. rewrite Hd. exact Hnew.
Qed.

Lemma cleanup_zero_days_is_default_witness :
  (JS.parseInt "0" = None \/ JS.parseInt "0" = Some 0)
  /\ Logs.daysToKeepOf (Logs.query (withDays (Some "0") (logRequest admin noQuery))) = 30
  /\ Logs.cleanupHandler (withDays (Some "0") (logRequest admin noQuery)) auditStore
     = Logs.cleanupHandler (withDays None (logRequest admin noQuery)) auditStore.
Proof.
  split; [right; reflexivity|].
  destruct (cleanup_zero_days_is_default (logRequest admin noQuery) "0" auditStore
              (or_intror eq_refl)) as (Hd & Hsame & _).
  split; [exact Hd | exact Hsame].
Defined.




(** ** Pagination *)


Lemma insertDesc_length l ls :
  List.length (Logs.insertDesc l ls) = S (List.length ls).
Proof.
  induction ls as [|h t IH]; cbn; [reflexivity|].
  destruct (l_createdAt h <? l_createdAt l); cbn; [reflexivity | now rewrite IH].
Qed.

Lemma sortDesc_length ls : List.length (Logs.sortDesc ls) = List.length ls.
Proof.
  induction ls as [|h t IH]; [reflexivity|].
  change (Logs.sortDesc (h :: t)) with (Logs.insertDesc h (Logs.sortDesc t)).
  rewrite insertDesc_length, IH. reflexivity.
Qed.





Lemma attach_no_user us l : Logs.hasUserId l = false -> Logs.attach us l = Logs.attach [] l.
Proof. unfold Logs.hasUserId, Logs.attach. destruct (l_userId l); [discriminate | reflexivity]. Qed.

Lemma populate_inv ls w es w' :
  Logs.populate ls w = (inr es, w') ->
  es = map (Logs.attach (users w)) ls
  /\ logs w' = logs w /\ regexI w' = regexI w /\ users w' = users w.
Proof.
  unfold Logs.populate. destruct (existsb Logs.hasUserId ls) eqn:Hex; run.
  - destruct (faults w Users (calls w Users)); intros H; inversion H; subst. cbn. auto.
  - intros H; inversion H; subst. split; [|auto].
    apply map_ext_in. intros l Hl. symmetry. apply attach_no_user.
    destruct (Logs.hasUserId l) eqn:E; [|reflexivity].
    assert (existsb Logs.hasUserId ls = true) by (apply existsb_exists; eauto). congruence.
Qed.


(** A successful [find] returns the requested slice of the newest-first
    selection, populated from the users collection, and changes no
    collection. *)
Lemma find_inv f skip limit w es w' :
  Logs.find f skip limit w = (inr es, w') ->
  es = map (Logs.attach (users w))
         (Logs.applyLimit limit
            (skipn (Z.to_nat skip) (Logs.sortDesc (Logs.selected f w))))
  /\ logs w' = logs w /\ regexI w' = regexI w /\ users w' = users w.
Proof.
  unfold Logs.find. destruct (Logs.castError f); [discriminate|]. run.
  destruct (faults w SyncLogs (calls w SyncLogs)); [discriminate|].
  destruct (skip <? 0); [discriminate|].
  match goal with |- context [Logs.populate ?ls ?w1] =>
    destruct (Logs.populate ls w1) as [[e|es1] w1'] eqn:Hp end; [discriminate|].
  intros H; inversion H; subst. apply populate_inv in Hp. exact Hp.
Qed.












(** ** CSV export *)

Lemma unescape_doubleQuotes (m : string) :
  unescape (JS.doubleQuotes m ++ quote) = Some m.
Proof.
  induction m as [|c m IH]; [reflexivity|].
  cbn [JS.doubleQuotes]. destruct (Ascii.eqb c JS.dq) eqn:E.
  - apply Ascii.eqb_eq in E. subst c.
    cbn [String.append unescape]. rewrite Ascii.eqb_refl, IH. reflexivity.
  - cbn [String.append unescape]. rewrite E, IH. reflexivity.
Qed.

Lemma readQuoted_csvMessage (log : SyncLog) :
  readQuoted (Logs.csvMessage log) = Some (JS.orString (l_message log) EmptyString).
Proof.
  unfold Logs.csvMessage, readQuoted. rewrite Ascii.eqb_refl.
  apply unescape_doubleQuotes.
Qed.

Lemma exportHandler_inv req w content w' :
  Logs.exportHandler req w = (CsvFile content, w') ->
  content = Logs.csvHeader
            ++ JS.join Logs.nl (map Logs.csvRow (exported (Logs.query req) w))
  /\ logs w' = logs w.
Proof.
  unfold Logs.exportHandler, Logs.respond. unfold bind, ret.
  destruct (Logs.find _ _ _ w) as [[e|es] w1] eqn:Hf; [discriminate|].
  intros H; inversion H; subst.
  apply find_inv in Hf. destruct Hf as (Hes & Hl & _).
  split; [|exact Hl]. rewrite Hes. reflexivity.
Qed.

(** The fields of a row before they are joined.  The export is the header
    followed by one row per exported entry; a row is its nine fields joined
    by commas.  The sixth field is the message between double quotes with
    each inner double quote doubled, which a CSV reader decodes back to the
    message; the seventh field is the username of the user of the store
    that the entry refers to, else the entry's own username, else the text
    System.  The message He said "hi" is rendered as [heSaidHiField]. *)
Lemma csv_row_rendering (req : Logs.Request) (w w' : World) (content : string) :
  Logs.exportHandler req w = (CsvFile content, w') ->
  content = Logs.csvHeader
            ++ JS.join Logs.nl (map Logs.csvRow (exported (Logs.query req) w))
  /\ forall e, In e (exported (Logs.query req) w) ->
       let log := pl_log e in
       let message := JS.orString (l_message log) EmptyString in
       Logs.csvRow e = JS.join "," (Logs.csvFields e)
       /\ List.length (Logs.csvFields e) = 9%nat
       /\ nth 5 (Logs.csvFields e) EmptyString
          = quote ++ JS.doubleQuotes message ++ quote
       /\ readQuoted (nth 5 (Logs.csvFields e) EmptyString) = Some message
       /\ pl_user e = match l_userId log with
                      | Some id => find (fun u => Nat.eqb (u_id u) id) (users w)
                      | None => None
                      end
       /\ (forall u, pl_user e = Some u ->
             nth 6 (Logs.csvFields e) EmptyString = u_username u)
       /\ (pl_user e = None -> JS.truthy (l_username log) = true ->
             Some (nth 6 (Logs.csvFields e) EmptyString) = l_username log)
       /\ (pl_user e = None -> JS.truthy (l_username log) = false ->
             nth 6 (Logs.csvFields e) EmptyString = "System")
       /\ (l_message log = Some heSaidHi ->
             nth 5 (Logs.csvFields e) EmptyString = heSaidHiField).
Proof.
  intros Hrun. apply exportHandler_inv in Hrun. destruct Hrun as (Hc & _).
  split; [exact Hc|]. intros e He log message.
  split; [reflexivity|]. split; [reflexivity|]. split; [reflexivity|].
  split; [apply readQuoted_csvMessage|].
  split.
  { unfold exported in He. apply in_map_iff in He. destruct He as (l & <- & _).
    reflexivity. }
  cbn [Logs.csvFields nth]. unfold Logs.csvUser. fold log.
  split; [intros u ->; reflexivity|].
  split.
  { intros -> Ht. unfold JS.truthy, JS.orString in *.
    destruct (l_username log) as [s|]; [|discriminate].
    destruct (String.eqb s EmptyString); [discriminate | reflexivity]. }
  split.
  { intros -> Ht. unfold JS.truthy, JS.orString in *.
    destruct (l_username log) as [s|]; [|reflexivity].
    destruct (String.eqb s EmptyString); [reflexivity | discriminate]. }
  intros Hm. unfold Logs.csvMessage. fold log. rewrite Hm. reflexivity.
Qed.

Lemma csv_row_rendering_witness :
  Logs.exportHandler (logRequest admin noQuery) auditStore
    = (CsvFile auditCsv, snd (Logs.exportHandler (logRequest admin noQuery) auditStore))
  /\ auditCsv = Logs.csvHeader
                ++ JS.join Logs.nl (map Logs.csvRow (exported noQuery auditStore))
  /\ nth 5 (Logs.csvFields (Logs.attach (users auditStore) quotedEntry)) EmptyString
     = heSaidHiField.
Proof.
  assert (H : Logs.exportHandler (logRequest admin noQuery) auditStore
              = (CsvFile auditCsv,
                 snd (Logs.exportHandler (logRequest admin noQuery) auditStore)))
    by reflexivity.
  split; [exact H|].
  destruct (csv_row_rendering _ _ _ _ H) as [Hc Hrows].
  split; [exact Hc|].
  apply (Hrows (Logs.attach (users auditStore) quotedEntry)).
  - right. left. reflexivity.
  - reflexivity.
Defined.

(** C7.  The User column of a row is not the username when the username
    holds a comma.  The export writes the user as it is, without quotes:
    for the one entry of [smithStore], which refers to the user named
    Smith, John, the row reads as ten columns where the header has nine,
    its seventh column, the User column, is Smith and not the username, and
    the Source column holds the rest of the name.  The message column of
    the same row is quoted and reads back as the message. *)
Theorem csv_user_column_breaks_on_comma :
  fst (Logs.exportHandler (logRequest admin noQuery) smithStore)
    = CsvFile (Logs.csvHeader ++ smithRow)
  /\ (exists u, In u (users smithStore) /\ l_userId smithEntry = Some (u_id u)
                /\ u_username u = "Smith, John")
  /\ List.length (columns "Date,Time,Level,Operation,Entity Type,Message,User,Source,IP Address")
     = 9%nat
  /\ columns smithRow
     = ["2024-02-28"; "12:34:56"; "info"; "sync"; "product"; "Log cleanup completed";
        "Smith"; " John"; "api"; EmptyString]
  /\ List.length (columns smithRow) = 10%nat
  /\ nth 5 (columns smithRow) EmptyString = "Log cleanup completed"
  /\ nth 6 (columns smithRow) EmptyString = "Smith"
  /\ nth 6 (columns smithRow) EmptyString <> "Smith, John"
  /\ nth 7 (columns smithRow) EmptyString = " John".
Proof.
  split; [vm_compute; reflexivity|].
  split. { exists smith. split; [right; right; left; reflexivity | split; reflexivity]. }
  split; [vm_compute; reflexivity|]. split; [vm_compute; reflexivity|].
  split; [vm_compute; reflexivity|]. split; [vm_compute; reflexivity|].
  split; [vm_compute; reflexivity|]. split; [vm_compute; discriminate|].
  vm_compute; reflexivity.
Qed.

(** The two filter constructions agree on a query that has neither a user
    nor a search text. *)
Lemma filters_agree_without_user_and_search (q : Logs.Query) :
  JS.truthy (Logs.q_userId q) = false ->
  JS.truthy (Logs.q_search q) = false ->
  Logs.exportFilter q = Logs.listFilter q.
Proof.
  intros Hu Hs. unfold Logs.exportFilter, Logs.listFilter, Logs.whenTruthy.
  rewrite Hu, Hs. reflexivity.
Qed.

(** C4.  The export does not select what the listing selects: it drops the
    [userId] and [search] parameters.  On [auditStore] the listing with
    userId = admin selects one entry and the listing with search = cleanup
    selects one entry, while the export selects all three in both cases. *)
Theorem export_ignores_user_and_search :
  Logs.selected (Logs.listFilter byUser) auditStore = [oldEntry]
  /\ Logs.selected (Logs.exportFilter byUser) auditStore
     = [oldEntry; quotedEntry; clerkEntry]
  /\ Logs.selected (Logs.listFilter bySearch) auditStore = [clerkEntry]
  /\ Logs.selected (Logs.exportFilter bySearch) auditStore
     = [oldEntry; quotedEntry; clerkEntry]
  /\ (exists pg w',
        Logs.listHandler (logRequest admin bySearch) auditStore
        = (LogsPage [Logs.attach (users auditStore) clerkEntry] pg, w')
        /\ pg_total pg = 1%nat)
  /\ fst (Logs.exportHandler (logRequest admin bySearch) auditStore) = CsvFile auditCsv.
Proof.
  split; [reflexivity|]. split; [reflexivity|]. split; [reflexivity|].
  split; [reflexivity|]. split; [|reflexivity].
  eexists _, _. split; reflexivity.
Qed.

(** ** The sync loop *)

Lemma findOne_run k w :
  ProductModel.findOne k w =
  if faults w Products (calls w Products)
  then (inl (StoreFailure Products), tick Products w)
  else (inr (find (ProductModel.skuMatches (option_map JS.trim k)) (products w)),
        tick Products w).
Proof.
  unfold ProductModel.findOne. run.
  destruct (faults w Products (calls w Products)); reflexivity.
Qed.

Lemma save_run p w :
  ProductModel.save p w =
  match ProductModel.pathErrors p with
  | [] =>
      if faults w Products (calls w Products)
      then (inl (StoreFailure Products), tick Products w)
      else if existsb (duplicateOf p) (products w)
           then (inl (DuplicateKey "sku"), tick Products w)
           else (inr tt, setProducts (ProductModel.upsert p (products w))
                                     (tick Products w))
  | path :: paths => (inl (ValidationError "Product" (path :: paths)), w)
  end.
Proof.
  unfold ProductModel.save. destruct (ProductModel.pathErrors p); [|reflexivity].
  run. destruct (faults w Products (calls w Products)); [reflexivity|].
  cbn [products tick]. fold (duplicateOf p).
  destruct (existsb (duplicateOf p) (products w)); reflexivity.
Qed.


Lemma liftW_run {A} (m : M World A) (w : World) (r : Results) :
  Sync.liftW m (w, r) = (fst (m w), (snd (m w), r)).
Proof. unfold Sync.liftW. cbn. destruct (m w). reflexivity. Qed.


Lemma sourceOrDefault_given o : SyncLogModel.sourceOrDefault (Sync.given o) = o.
Proof. destruct o; reflexivity. Qed.

Lemma itemLog_wellFormed req id pd :
  wellFormedLog (Sync.itemLog req "update" "updated" id pd)
    = optionalEnum SyncLogModel.sourceEnum (Sync.sourceOf req)
  /\ wellFormedLog (Sync.itemLog req "create" "created" id pd)
    = optionalEnum SyncLogModel.sourceEnum (Sync.sourceOf req).
Proof.
  unfold wellFormedLog, Sync.itemLog. cbn [ld_operation ld_entityType ld_message ld_level
    ld_source orDefault]. rewrite sourceOrDefault_given. split; reflexivity.
Qed.

Lemma errorLog_wellFormed req pd e :
  wellFormedLog (Sync.errorLog req pd e)
    = optionalEnum SyncLogModel.sourceEnum (Sync.sourceOf req).
Proof.
  unfold wellFormedLog, Sync.errorLog. cbn [ld_operation ld_entityType ld_message ld_level
    ld_source orDefault]. rewrite sourceOrDefault_given. reflexivity.
Qed.

Lemma startLog_wellFormed req n :
  wellFormedLog (Sync.startLog req n)
    = optionalEnum SyncLogModel.sourceEnum (Sync.sourceOf req).
Proof.
  unfold wellFormedLog, Sync.startLog. cbn [ld_operation ld_entityType ld_message ld_level
    ld_source orDefault]. rewrite sourceOrDefault_given. reflexivity.
Qed.

Lemma summaryLog_wellFormed req r d :
  wellFormedLog (Sync.summaryLog req r d)
    = optionalEnum SyncLogModel.sourceEnum (Sync.sourceOf req).
Proof.
  unfold wellFormedLog, Sync.summaryLog.
  cbn [ld_operation ld_entityType ld_message ld_level ld_source orDefault].
  rewrite sourceOrDefault_given.
  destruct (0 <? errors r)%nat; reflexivity.
Qed.

Lemma logsUntouched_tick w : logsUntouched w (tick Products w).
Proof. repeat split. Qed.

Lemma tryItem_outcome req pd w r : TryOutcome req pd w r (Sync.tryItem req (Obj pd) (w, r)).
Proof.
  unfold Sync.tryItem. unfold bind at 1. rewrite liftW_run, findOne_run.
  destruct (faults w Products (calls w Products)) eqn:Hf0; cbn [fst snd].
  { apply TryRejected; [apply logsUntouched_tick | reflexivity]. }
  set (w0 := tick Products w).
  assert (U0 : logsUntouched w w0) by apply logsUntouched_tick.
  destruct (find _ (products w)) as [existing|].
  - unfold bind at 1. rewrite liftW_run. cbn [fst snd now gets].
    unfold bind at 1. rewrite liftW_run, save_run.
    destruct (ProductModel.pathErrors _); cbn [fst snd].
    2:{ apply TryRejected; [exact U0 | reflexivity]. }
    destruct (faults w0 Products (calls w0 Products)); cbn [fst snd].
    { apply TryRejected; [repeat split | reflexivity]. }
    destruct (existsb _ (products w0)); cbn [fst snd].
    { apply TryRejected; [repeat split | reflexivity]. }
    unfold bind at 1. unfold Sync.incUpdated at 1, modify at 1. cbn [fst snd].
    unfold bind at 1. rewrite liftW_run.
    match goal with |- context [SyncLogModel.createLog ?d ?w1] =>
      destruct (createLog_cases d w1) as
        [(log & Hrun & Hlog & Hwf & Hok) | (e & w' & Hrun & Hl & Hp & Hfl & Hwhy)];
      rewrite Hrun; cbn [fst snd] end.
    + subst log. unfold ret.
      eapply (TrySynced req pd w r _ _ "update" "updated"); auto.
      repeat split; cbn; lia.
    + eapply TryUnlogged; [rewrite Hl; reflexivity | rewrite Hfl; reflexivity | | ].
      * repeat split; cbn; lia.
      * destruct Hwhy as [Hwhy|Hwhy]; [left | right; exact Hwhy].
        rewrite (proj1 (itemLog_wellFormed _ _ _)) in Hwhy. exact Hwhy.
  - unfold bind at 1. rewrite liftW_run. cbn [fst snd newObjectId].
    unfold bind at 1. rewrite liftW_run. cbn [fst snd now gets].
    unfold bind at 1. rewrite liftW_run, save_run.
    destruct (ProductModel.pathErrors _); cbn [fst snd].
    2:{ apply TryRejected; [repeat split | reflexivity]. }
    destruct (faults (bumpId w0) Products (calls (bumpId w0) Products)); cbn [fst snd].
    { apply TryRejected; [repeat split | reflexivity]. }
    destruct (existsb _ (products (bumpId w0))); cbn [fst snd].
    { apply TryRejected; [repeat split | reflexivity]. }
    unfold bind at 1. unfold Sync.incCreated at 1, modify at 1. cbn [fst snd].
    unfold bind at 1. rewrite liftW_run.
    match goal with |- context [SyncLogModel.createLog ?d ?w1] =>
      destruct (createLog_cases d w1) as
        [(log & Hrun & Hlog & Hwf & Hok) | (e & w' & Hrun & Hl & Hp & Hfl & Hwhy)];
      rewrite Hrun; cbn [fst snd] end.
    + subst log. unfold ret.
      eapply (TrySynced req pd w r _ _ "create" "created"); auto.
      repeat split; cbn; lia.
    + eapply TryUnlogged; [rewrite Hl; reflexivity | rewrite Hfl; reflexivity | | ].
      * repeat split; cbn; lia.
      * destruct Hwhy as [Hwhy|Hwhy]; [left | right; exact Hwhy].
        rewrite (proj2 (itemLog_wellFormed _ _ _)) in Hwhy. exact Hwhy.
Qed.

(** The [catch] block when its audit write goes through. *)
Lemma catchItem_ok req pd e w r :
  logSourceOk req ->
  faults w SyncLogs (calls w SyncLogs) = false ->
  Sync.catchItem req (Obj pd) e (w, r) =
    (inr tt,
     (setLogs (logs w ++ [SyncLogModel.create (nextId w) (Sync.errorLog req pd e) (clock w)])
              (tick SyncLogs (bumpId w)),
      addError r)).
Proof.
  intros Hsrc Hup. unfold Sync.catchItem.
  unfold bind at 1. unfold Sync.incErrors at 1, modify at 1. cbn [fst snd].
  unfold bind at 1. rewrite liftW_run, createLog_ok; [reflexivity | | exact Hup].
  rewrite errorLog_wellFormed. exact Hsrc.
Qed.

(** The [catch] block always counts the error and never touches the
    products, whether or not its audit write goes through. *)
Lemma catchItem_effect req pd e w r :
  exists x w', Sync.catchItem req (Obj pd) e (w, r) = (x, (w', addError r))
               /\ products w' = products w.
Proof.
  unfold Sync.catchItem.
  unfold bind at 1. unfold Sync.incErrors at 1, modify at 1. cbn [fst snd].
  unfold bind at 1. rewrite liftW_run.
  match goal with |- context [SyncLogModel.createLog ?d ?w1] =>
    destruct (createLog_cases d w1) as
      [(log & Hrun & _) | (e' & w' & Hrun & _ & Hp & _)];
    rewrite Hrun; cbn [fst snd] end.
  - eexists _, _. split; reflexivity.
  - eexists _, _. split; [reflexivity | exact Hp].
Qed.



(** With the audit log store up and the source accepted by its schema, one
    turn of the loop never throws: it counts the item once and appends one
    entry. *)
Lemma syncItem_ok req pd w r :
  logSourceOk req -> logStoreUp w ->
  exists w' r' entry,
    Sync.syncItem req (Obj pd) (w, r) = (inr tt, (w', r'))
    /\ logs w' = (logs w ++ [entry])%list
    /\ faults w' = faults w
    /\ itemEntry entry
    /\ total r' = total r
    /\ (created r' + updated r' + errors r' = S (created r + updated r + errors r))%nat.
Proof.
  intros Hsrc Hup. unfold Sync.syncItem, tryCatch.
  destruct (tryItem_outcome req pd w r)
    as [w1 r1 operation verb id (Hl & Hf & Hc) (Ht & He & Hcu) Hop Hwf Hok
       | e w1 (Hl & Hf & Hc) Hp
       | e w1 r1 Hl Hf Hcnt Hwhy].
  - eexists _, _, _. split; [reflexivity|]. cbn [logs setLogs faults tick bumpId].
    rewrite Hl, Hf. split; [reflexivity|]. split; [reflexivity|].
    split. { unfold itemEntry. cbn. destruct Hop as [[-> _]|[-> _]]; auto. }
    split; [exact Ht | lia].
  - rewrite catchItem_ok; [| exact Hsrc | rewrite Hf, Hc; apply Hup].
    eexists _, _, _. split; [reflexivity|]. cbn [logs setLogs faults tick bumpId].
    rewrite Hl, Hf. split; [reflexivity|]. split; [reflexivity|].
    split. { unfold itemEntry. cbn. auto. }
    split; [reflexivity | cbn; lia].
  - exfalso. unfold logSourceOk in Hsrc. rewrite Hup in Hwhy.
    destruct Hwhy; congruence.
Qed.

Lemma syncLoop_ok req (items : list ProductData) : forall w r,
  logSourceOk req -> logStoreUp w ->
  exists w' r' entries,
    Sync.syncLoop req (map Obj items) (w, r) = (inr tt, (w', r'))
    /\ logs w' = (logs w ++ entries)%list
    /\ faults w' = faults w
    /\ List.length entries = List.length items
    /\ Forall itemEntry entries
    /\ total r' = total r
    /\ (created r' + updated r' + errors r'
        = created r + updated r + errors r + List.length items)%nat.
Proof.
  induction items as [|pd rest IH]; intros w r Hsrc Hup.
  - exists w, r, []. cbn. rewrite app_nil_r. repeat split; auto; lia.
  - destruct (syncItem_ok req pd w r Hsrc Hup)
      as (w1 & r1 & entry & Hrun & Hl & Hf & He & Ht & Hc).
    assert (Hup1 : logStoreUp w1) by (intro n; rewrite Hf; apply Hup).
    destruct (IH w1 r1 Hsrc Hup1)
      as (w2 & r2 & entries & Hrun2 & Hl2 & Hf2 & Hlen & Hall & Ht2 & Hc2).
    exists w2, r2, (entry :: entries).
    cbn [Sync.syncLoop map]. unfold bind. rewrite Hrun, Hrun2.
    split; [reflexivity|]. split. { rewrite Hl2, Hl, <- app_assoc. reflexivity. }
    split; [congruence|]. split; [cbn; lia|]. split; [constructor; assumption|].
    split; [congruence | cbn [List.length]; lia].
Qed.

(** The loop over a batch is the loop over its first part followed by the
    loop over the rest: the turn of an item starts in the state that the
    items before it have left. *)
Lemma syncLoop_app req (pre post : list Item) (s : Sync.State) :
  Sync.syncLoop req (pre ++ post) s
  = (Sync.syncLoop req pre ;; Sync.syncLoop req post) s.
Proof.
  revert s. induction pre as [|item pre IH]; intros s; [reflexivity|].
  cbn [app Sync.syncLoop]. unfold bind.
  destruct (Sync.syncItem req item s) as [[e|[]] s1]; [reflexivity|].
  rewrite IH. reflexivity.
Qed.

(** The turn for a null element: both blocks throw, after [errors] has
    been incremented and before any store call. *)
Lemma syncItem_null req w r :
  Sync.syncItem req Null (w, r) = (inl Sync.nullRead, (w, addError r)).
Proof. reflexivity. Qed.

(** Whatever the stores do, one turn of the loop leaves [total] alone and
    counts the item once or twice. *)
Lemma syncItem_counts req item w r :
  exists x w' r',
    Sync.syncItem req item (w, r) = (x, (w', r'))
    /\ total r' = total r
    /\ (S (counters r) <= counters r' <= S (S (counters r)))%nat.
Proof.
  destruct item as [|pd].
  { rewrite syncItem_null. eexists _, _, _. split; [reflexivity|].
    unfold counters. cbn. split; [reflexivity | lia]. }
  unfold Sync.syncItem, tryCatch, counters.
  destruct (tryItem_outcome req pd w r)
    as [w1 r1 operation verb id _ (Ht & He & Hcu) _ _ _
       | e w1 _ _
       | e w1 r1 _ _ (Ht & He & Hcu) _].
  - eexists _, _, _. split; [reflexivity|]. split; [exact Ht | lia].
  - destruct (catchItem_effect req pd e w1 r) as (x & w2 & Hc & _).
    rewrite Hc. eexists _, _, _. split; [reflexivity|]. cbn. split; [reflexivity | lia].
  - destruct (catchItem_effect req pd e w1 r1) as (x & w2 & Hc & _).
    rewrite Hc. eexists _, _, _. split; [reflexivity|]. cbn. split; [exact Ht | lia].
Qed.

Lemma syncLoop_counts req items : forall w r,
  exists x w' r',
    Sync.syncLoop req items (w, r) = (x, (w', r'))
    /\ total r' = total r
    /\ (x = inr tt ->
        (counters r + List.length items <= counters r'
         <= counters r + 2 * List.length items)%nat).
Proof.
  induction items as [|pd rest IH]; intros w r.
  - exists (inr tt), w, r. cbn. repeat split; lia.
  - destruct (syncItem_counts req pd w r) as (x & w1 & r1 & Hrun & Ht & Hc).
    cbn [Sync.syncLoop]. unfold bind. rewrite Hrun.
    destruct x as [e|[]].
    + eexists _, _, _. split; [reflexivity|]. split; [exact Ht | discriminate].
    + destruct (IH w1 r1) as (x & w2 & r2 & Hrun2 & Ht2 & Hc2).
      rewrite Hrun2. eexists _, _, _. split; [reflexivity|].
      split; [congruence|]. intros Hx. specialize (Hc2 Hx). cbn [List.length]. lia.
Qed.

(** ** The handler *)

(** With a source that the SyncLog schema accepts and the audit log store
    up, the handler answers with the summary, whatever the product store
    does: the new entries are one start entry, one entry per item, one
    summary entry, and every item is counted exactly once. *)
Lemma sync_completes (req : Sync.Request) (items : list ProductData) (w : World) :
  Sync.body_products req = Some (map Obj items) -> logSourceOk req -> logStoreUp w ->
  exists results duration w' start entries summary,
    Sync.handler req w = (SyncCompleted results duration, w')
    /\ logs w' = (logs w ++ [start] ++ entries ++ [summary])%list
    /\ start = SyncLogModel.create (nextId w) (Sync.startLog req (List.length items)) (clock w)
    /\ List.length entries = List.length items
    /\ Forall itemEntry entries
    /\ l_operation summary = Some "sync"
    /\ l_level summary = levelFor results
    /\ l_details summary = Some (DSyncResults results)
    /\ l_duration summary = Some duration
    /\ duration = l_createdAt summary - l_createdAt start
    /\ total results = List.length items
    /\ (created results + updated results + errors results = total results)%nat.
Proof.
  intros Hitems Hsrc Hup. unfold Sync.handler. rewrite Hitems.
  unfold Sync.syncBody, Sync.initialResults. rewrite !length_map.
  unfold bind at 1. rewrite liftW_run. cbn [fst snd now gets].
  unfold bind at 1. rewrite liftW_run, createLog_ok;
    [| rewrite startLog_wellFormed; exact Hsrc | apply Hup].
  cbn [fst snd].
  set (start := SyncLogModel.create (nextId w) (Sync.startLog req (List.length items)) (clock w)).
  set (w1 := setLogs (logs w ++ [start]) (tick SyncLogs (bumpId w))).
  assert (Hup1 : logStoreUp w1) by (intro n; apply Hup).
  destruct (syncLoop_ok req items w1 (mkResults 0 0 0 (List.length items)) Hsrc Hup1)
    as (w2 & r2 & entries & Hloop & Hl & Hf & Hlen & Hall & Ht & Hc).
  unfold bind at 1. rewrite Hloop.
  unfold bind at 1. rewrite liftW_run. cbn [fst snd now gets].
  unfold bind at 1. cbn [fst snd gets].
  assert (Hup2 : logStoreUp w2) by (intro n; rewrite Hf; apply Hup1).
  unfold bind at 1. rewrite liftW_run, createLog_ok;
    [| rewrite summaryLog_wellFormed; exact Hsrc | apply Hup2].
  cbn [fst snd ret].
  eexists _, _, _, start, entries, _. split; [reflexivity|].
  cbn [logs setLogs]. rewrite Hl. subst w1. cbn [logs setLogs].
  split. { rewrite <- !app_assoc. reflexivity. }
  split; [reflexivity|]. split; [exact Hlen|]. split; [exact Hall|].
  split; [reflexivity|]. split; [reflexivity|]. split; [reflexivity|].
  split; [reflexivity|]. split; [reflexivity|].
  cbn in Ht, Hc. split; [exact Ht | lia].
Qed.

(** Every summary that the handler returns has [total] equal to the batch
    length, and counts every item at least once and at most twice. *)
Lemma sync_summary_bounds req items w results duration w' :
  Sync.body_products req = Some items ->
  Sync.handler req w = (SyncCompleted results duration, w') ->
  total results = List.length items
  /\ (total results <= counters results <= 2 * total results)%nat.
Proof.
  intros Hitems. unfold Sync.handler. rewrite Hitems. unfold Sync.syncBody.
  unfold bind at 1. rewrite liftW_run. cbn [fst snd now gets].
  unfold bind at 1. rewrite liftW_run.
  destruct (SyncLogModel.createLog _ w) as [[e|start] w1]; cbn [fst snd];
    [discriminate|].
  unfold bind at 1.
  destruct (syncLoop_counts req items w1 (Sync.initialResults items))
    as (x & w2 & r2 & Hloop & Ht & Hc).
  rewrite Hloop. destruct x as [e|[]]; [discriminate|].
  unfold bind at 1. rewrite liftW_run. cbn [fst snd now gets].
  unfold bind at 1. cbn [fst snd gets].
  unfold bind at 1. rewrite liftW_run.
  destruct (SyncLogModel.createLog _ w2) as [[e|summary] w3]; cbn [fst snd];
    [discriminate|].
  unfold ret. intros H; inversion H; subst.
  specialize (Hc eq_refl). cbn in Ht, Hc. unfold counters in *. cbn in Hc.
  split; [exact Ht|]. rewrite Ht. lia.
Qed.



(** Where the failure of an item is isolated.  Let every element of the
    batch be an object, let the source be one that the SyncLog schema
    accepts and let the audit log store answer.  Then the handler answers
    with a result summary; and whenever the [try] block of an object throws
    an error, the turn does not throw: it adds one to [errors] and nothing
    to the other counters, appends an error-level entry whose message and
    details carry the error message and whose details carry the payload,
    and the loop goes on with the next item. *)
Lemma sync_item_failure_isolated (req : Sync.Request) (items : list ProductData)
    (w : World) :
  Sync.body_products req = Some (map Obj items) -> logSourceOk req -> logStoreUp w ->
  (exists results duration w',
      Sync.handler req w = (SyncCompleted results duration, w'))
  /\ forall (pd : ProductData) (rest : list Item) (s s1 : Sync.State) (e : Error),
       logStoreUp (fst s) ->
       Sync.tryItem req (Obj pd) s = (inl e, s1) ->
       exists entry s2,
         Sync.syncItem req (Obj pd) s = (inr tt, s2)
         /\ errors (snd s2) = S (errors (snd s))
         /\ created (snd s2) = created (snd s)
         /\ updated (snd s2) = updated (snd s)
         /\ logs (fst s2) = (logs (fst s) ++ [entry])%list
         /\ l_level entry = "error"
         /\ l_message entry = Some ("Sync error for product SKU "
                                    ++ JS.interp (pd_sku pd) ++ ": " ++ errMessage e)
         /\ l_details entry = Some (DSyncError (errMessage e) pd)
         /\ Sync.syncLoop req (Obj pd :: rest) s = Sync.syncLoop req rest s2.
Proof.
  intros Hitems Hsrc Hup. split.
  { destruct (sync_completes req items w Hitems Hsrc Hup)
      as (results & duration & w' & _ & _ & _ & Hrun & _).
    eauto. }
  intros pd rest [w0 r0] s1 e Hup0 Htry. cbn [fst snd] in *.
  pose proof (tryItem_outcome req pd w0 r0) as Hout. rewrite Htry in Hout.
  inversion Hout as [ | e' w1 (Hl & Hf & Hc) Hp | e' w1 r1 Hl Hf Hcnt Hwhy]; subst.
  - assert (Hitem : Sync.syncItem req (Obj pd) (w0, r0)
              = Sync.catchItem req (Obj pd) e (w1, r0)).
    { unfold Sync.syncItem, tryCatch. rewrite Htry. reflexivity. }
    rewrite catchItem_ok in Hitem; [| exact Hsrc | rewrite Hf, Hc; apply Hup0].
    eexists _, _. split; [exact Hitem|].
    cbn [fst snd logs setLogs addError errors created updated].
    split; [reflexivity|]. split; [reflexivity|]. split; [reflexivity|].
    split; [rewrite Hl; reflexivity|]. repeat (split; [reflexivity|]).
    cbn [Sync.syncLoop]. unfold bind. rewrite Hitem. reflexivity.
  - exfalso. unfold logSourceOk in Hsrc. rewrite Hup0 in Hwhy.
    destruct Hwhy; congruence.
Qed.

Lemma sync_item_failure_isolated_witness :
  Sync.body_products (syncRequest None [noSku; widget]) = Some (map Obj [noSku; widget])
  /\ logSourceOk (syncRequest None [noSku; widget])
  /\ logStoreUp emptyStore
  /\ returnsSummary (syncRequest None [noSku; widget]) emptyStore.
Proof.
  assert (Hsrc : logSourceOk (syncRequest None [noSku; widget])) by reflexivity.
  assert (Hup : logStoreUp emptyStore) by (intro n; reflexivity).
  split; [reflexivity|]. split; [exact Hsrc|]. split; [exact Hup|].
  exact (proj1 (sync_item_failure_isolated (syncRequest None [noSku; widget])
                  [noSku; widget] emptyStore eq_refl Hsrc Hup)).
Defined.

(** The write of the error entry is not guarded either: when the store goes
    down during the batch, the lookup of the item throws, the write of the
    error entry throws as well, and the handler answers 500 instead of a
    result summary. *)
Lemma sync_aborts_when_store_goes_down :
  let req := syncRequest None [widget] in
  let s0 := snd (Sync.liftW (SyncLogModel.createLog (Sync.startLog req 1))
                   (storeGoingDown, Sync.initialResults [Obj widget])) in
  fst (Sync.tryItem req (Obj widget) s0) = inl (StoreFailure Products)
  /\ fst (Sync.syncItem req (Obj widget) s0) = inl (StoreFailure SyncLogs)
  /\ fst (Sync.handler req storeGoingDown) = Failure 500 "Server error during sync"
  /\ ~ returnsSummary req storeGoingDown.
Proof.
  cbv zeta. split; [reflexivity|]. split; [reflexivity|]. split; [reflexivity|].
  intros (results & duration & w' & H). vm_compute in H. discriminate H.
Qed.

(** C3.  A null element aborts the batch.  For the batch [null, widget]
    against a store that answers every call, the [try] block of the first
    turn throws while it reads the sku of null, and so does the [catch]
    block while it writes the message of the error entry: the handler
    answers 500 and no summary, the log holds the start entry alone, neither
    an error entry nor a summary entry, and the widget, which the same
    request without the null element creates, is never processed. *)
Theorem sync_aborts_on_null_element :
  let out := Sync.handler nullThenWidget emptyStore in
  fst out = Failure 500 "Server error during sync"
  /\ ~ returnsSummary nullThenWidget emptyStore
  /\ map l_operation (logs (snd out)) = [Some "sync"]
  /\ products (snd out) = []
  /\ fst (Sync.syncItem nullThenWidget Null (emptyStore, Sync.initialResults [Null; Obj widget]))
     = inl Sync.nullRead
  /\ fst (Sync.handler (syncRequest None [widget]) emptyStore)
     = SyncCompleted (mkResults 1 0 0 1) 12.
Proof.
  cbv zeta. split; [vm_compute; reflexivity|]. split.
  { intros (results & duration & w' & H). vm_compute in H. discriminate H. }
  split; [vm_compute; reflexivity|]. split; [vm_compute; reflexivity|].
  split; vm_compute; reflexivity.
Qed.

(** C1.  When the audit write of an item's success entry fails after the
    product was saved, the item is counted twice: the batch of one item
    below returns created = 1 and errors = 1 with total = 1. *)
Theorem sync_counts_item_twice_when_its_log_fails :
  let out := Sync.handler (syncRequest None [widget]) storeWithGlitch in
  let results := mkResults 1 0 1 1 in
  fst out = SyncCompleted results 15
  /\ counters results = 2%nat
  /\ total results = List.length [widget]
  /\ map p_sku (products (snd out)) = [Some "A1"]
  /\ map l_operation (logs (snd out)) = [Some "sync"; Some "error"; Some "sync"].
Proof.
  cbv zeta. split; [vm_compute; reflexivity|]. split; [reflexivity|].
  split; [reflexivity|]. split; vm_compute; reflexivity.
Qed.

(** C6.  The source csv is in the Product schema's enum and not in the
    SyncLog schema's: the start entry is rejected, the handler answers 500,
    and neither a start entry nor a summary entry is written, for the empty
    batch as for any other. *)
Theorem sync_with_csv_source_logs_nothing :
  inEnum ProductModel.syncSourceEnum "csv" = true
  /\ inEnum SyncLogModel.sourceEnum "csv" = false
  /\ Sync.handler (syncRequest (Some "csv") []) emptyStore
     = (Failure 500 "Server error during sync", bumpId emptyStore)
  /\ logs (snd (Sync.handler (syncRequest (Some "csv") [widget]) emptyStore)) = []
  /\ products (snd (Sync.handler (syncRequest (Some "csv") [widget]) emptyStore)) = [].
Proof.
  split; [reflexivity|]. split; [reflexivity|]. split; [reflexivity|].
  split; reflexivity.
Qed.

(** ** The scenarios of the specification *)

Example scenario_first_sync :
  let out := Sync.handler (syncRequest (Some "api") [widget]) emptyStore in
  fst out = SyncCompleted (mkResults 1 0 0 1) 12
  /\ map p_sku (products (snd out)) = [Some "A1"]
  /\ map (fun l => (l_operation l, l_level l)) (logs (snd out))
     = [(Some "sync", "info"); (Some "create", "success"); (Some "sync", "success")].
Proof. cbv zeta. repeat split; vm_compute; reflexivity. Qed.

Example scenario_second_sync :
  let w1 := snd (Sync.handler (syncRequest (Some "api") [widget]) emptyStore) in
  fst (Sync.handler (syncRequest (Some "api") [widget]) w1)
  = SyncCompleted (mkResults 0 1 0 1) 12.
Proof. vm_compute. reflexivity. Qed.

Example scenario_item_without_sku :
  let out := Sync.handler (syncRequest (Some "api") [widget; noSku]) emptyStore in
  fst out = SyncCompleted (mkResults 1 0 1 2) 18
  /\ option_map l_level (last (map Some (logs (snd out))) None) = Some "warning".
Proof. cbv zeta. split; vm_compute; reflexivity. Qed.

Example scenario_empty_batch :
  let out := Sync.handler (syncRequest None []) emptyStore in
  fst out = SyncCompleted (mkResults 0 0 0 0) 3
  /\ map l_message (logs (snd out))
     = [Some "Bulk sync started for 0 products";
        Some "Bulk sync completed: 0 created, 0 updated, 0 errors"].
Proof. cbv zeta. split; vm_compute; reflexivity. Qed.

Example scenario_purge :
  let out := Logs.cleanupHandler (logRequest admin noQuery) auditStore in
  fst out = CleanupCompleted 1
  /\ map l_id (logs (snd out)) = [11; 12; 100]%nat.
Proof. cbv zeta. split; vm_compute; reflexivity. Qed.

Example scenario_negative_days :
  fst (Logs.cleanupHandler (withDays (Some "-1") (logRequest admin noQuery)) auditStore)
  = CleanupCompleted 3.
Proof. vm_compute. reflexivity. Qed.

Example scenario_days_out_of_range :
  let out := Logs.cleanupHandler (withDays (Some "200000000") (logRequest admin noQuery))
                                 auditStore in
  fst out = Failure 500 "Server error" /\ logs (snd out) = logs auditStore.
Proof. cbv zeta. split; vm_compute; reflexivity. Qed.

Example scenario_null_source :
  let out := Sync.handler nullSourceRequest emptyStore in
  fst out = SyncCompleted (mkResults 1 0 0 1) 12
  /\ map (fun l => (l_operation l, l_source l)) (logs (snd out))
     = [(Some "sync", None); (Some "create", None); (Some "sync", None)].
Proof. cbv zeta. split; vm_compute; reflexivity. Qed.

Example scenario_null_element :
  let out := Sync.handler nullThenWidget emptyStore in
  fst out = Failure 500 "Server error during sync"
  /\ map l_message (logs (snd out)) = [Some "Bulk sync started for 2 products"].
Proof. cbv zeta. split; vm_compute; reflexivity. Qed.

(* ================================================================== *)
(** * Further properties of the handlers *)

(** ** More on the sync loop: what every summary guarantees *)

(** Whatever the stores do, one turn of the loop adds at most one to
    [created] + [updated], at most one to [errors], and at least one to
    their sum. *)
Lemma syncItem_increments req item w r :
  exists x w' r',
    Sync.syncItem req item (w, r) = (x, (w', r'))
    /\ total r' = total r
    /\ (created r + updated r <= created r' + updated r' <= S (created r + updated r))%nat
    /\ (errors r <= errors r' <= S (errors r))%nat
    /\ (S (counters r) <= counters r')%nat.
Proof.
  destruct item as [|pd].
  { rewrite syncItem_null. eexists _, _, _. split; [reflexivity|].
    unfold counters. cbn. split; [reflexivity | lia]. }
  unfold Sync.syncItem, tryCatch, counters.
  destruct (tryItem_outcome req pd w r)
    as [w1 r1 operation verb id _ (Ht & He & Hcu) _ _ _
       | e w1 _ _
       | e w1 r1 _ _ (Ht & He & Hcu) _].
  - eexists _, _, _. split; [reflexivity|]. split; [exact Ht | lia].
  - destruct (catchItem_effect req pd e w1 r) as (x & w2 & Hc & _).
    rewrite Hc. eexists _, _, _. split; [reflexivity|]. cbn. split; [reflexivity | lia].
  - destruct (catchItem_effect req pd e w1 r1) as (x & w2 & Hc & _).
    rewrite Hc. eexists _, _, _. split; [reflexivity|]. cbn. split; [exact Ht | lia].
Qed.

Lemma syncLoop_increments req items : forall w r,
  exists x w' r',
    Sync.syncLoop req items (w, r) = (x, (w', r'))
    /\ total r' = total r
    /\ (x = inr tt ->
        (created r' + updated r' <= created r + updated r + List.length items
         /\ errors r' <= errors r + List.length items
         /\ counters r + List.length items <= counters r')%nat).
Proof.
  induction items as [|pd rest IH]; intros w r.
  - exists (inr tt), w, r. cbn. repeat split; lia.
  - destruct (syncItem_increments req pd w r)
      as (x & w1 & r1 & Hrun & Ht & Hcu & He & Hc).
    cbn [Sync.syncLoop]. unfold bind. rewrite Hrun.
    destruct x as [e|[]].
    + eexists _, _, _. split; [reflexivity|]. split; [exact Ht | discriminate].
    + destruct (IH w1 r1) as (x & w2 & r2 & Hrun2 & Ht2 & Hc2).
      rewrite Hrun2. eexists _, _, _. split; [reflexivity|].
      split; [congruence|]. intros Hx. specialize (Hc2 Hx). cbn [List.length].
      unfold counters in *. lia.
Qed.

(** X1.  Every result summary that POST /sync returns has [total] equal to
    the batch length, [created] + [updated] at most [total], [errors] at
    most [total], and the three counters together at least [total]; so a
    summary without errors counts every item exactly once as created or
    updated. *)
Theorem sync_summary_counters (req : Sync.Request) (items : list Item)
    (w w' : World) (results : Results) (duration : Z) :
  Sync.body_products req = Some items ->
  Sync.handler req w = (SyncCompleted results duration, w') ->
  total results = List.length items
  /\ (created results + updated results <= total results)%nat
  /\ (errors results <= total results)%nat
  /\ (total results <= created results + updated results + errors results)%nat
  /\ (errors results = 0%nat ->
      (created results + updated results)%nat = total results).
Proof.
  intros Hitems. unfold Sync.handler. rewrite Hitems. unfold Sync.syncBody.
  unfold bind at 1. rewrite liftW_run. cbn [fst snd now gets].
  unfold bind at 1. rewrite liftW_run.
  destruct (SyncLogModel.createLog _ w) as [[e|start] w1]; cbn [fst snd];
    [discriminate|].
  unfold bind at 1.
  destruct (syncLoop_increments req items w1 (Sync.initialResults items))
    as (x & w2 & r2 & Hloop & Ht & Hc).
  rewrite Hloop. destruct x as [e|[]]; [discriminate|].
  unfold bind at 1. rewrite liftW_run. cbn [fst snd now gets].
  unfold bind at 1. cbn [fst snd gets].
  unfold bind at 1. rewrite liftW_run.
  destruct (SyncLogModel.createLog _ w2) as [[e|summary] w3]; cbn [fst snd];
    [discriminate|].
  unfold ret. intros H; inversion H; subst.
  specialize (Hc eq_refl). unfold counters in Hc. cbn in Ht, Hc.
  rewrite Ht. repeat split; lia.
Qed.

Lemma sync_summary_counters_witness :
  Sync.body_products (syncRequest None [widget; noSku]) = Some [Obj widget; Obj noSku]
  /\ total (mkResults 1 0 1 2) = List.length [Obj widget; Obj noSku]
  /\ (errors (mkResults 1 0 1 2) <= total (mkResults 1 0 1 2))%nat.
Proof.
  split; [reflexivity|].
  assert (H : Sync.handler (syncRequest None [widget; noSku]) emptyStore
              = (SyncCompleted (mkResults 1 0 1 2) 18,
                 snd (Sync.handler (syncRequest None [widget; noSku]) emptyStore)))
    by (vm_compute; reflexivity).
  destruct (sync_summary_counters (syncRequest None [widget; noSku])
              [Obj widget; Obj noSku] emptyStore _ _ _ eq_refl H) as (Ht & _ & He & _).
  split; [exact Ht | exact He].
Defined.

(** ** The product collection under the sync handler *)

Lemma createLog_frame d w :
  exists x w', SyncLogModel.createLog d w = (x, w')
    /\ products w' = products w /\ faults w' = faults w
    /\ (nextId w <= nextId w')%nat.
Proof.
  unfold SyncLogModel.createLog. run. cbn [bumpId clock nextId].
  destruct (SyncLogModel.pathErrors _); cbn.
  - destruct (faults w SyncLogs (calls w SyncLogs));
      eexists _, _; (split; [reflexivity|]); cbn; repeat split; lia.
  - eexists _, _. split; [reflexivity|]. cbn. repeat split. lia.
Qed.

Lemma productStep_frame req w w1 :
  products w1 = products w -> faults w1 = faults w -> (nextId w <= nextId w1)%nat ->
  productStep req w w1.
Proof. intros Hp Hf Hn. split; [exact Hn|]. split; [exact Hf|]. left. exact Hp. Qed.

Lemma productSteps_trans req w w1 w2 :
  productSteps req w w1 -> productSteps req w1 w2 -> productSteps req w w2.
Proof.
  induction 1 as [|w w1 w1' Hs _ IH]; intros H2; [exact H2|].
  eapply StepsNext; [exact Hs | apply IH, H2].
Qed.

Lemma productSteps_one req w w1 : productStep req w w1 -> productSteps req w w1.
Proof. intros H. eapply StepsNext; [exact H | apply StepsDone]. Qed.

(** The [try] block makes at most one valid write. *)
Lemma tryItem_step req pd w r :
  exists x w1 r1, Sync.tryItem req (Obj pd) (w, r) = (x, (w1, r1)) /\ productStep req w w1.
Proof.
  unfold Sync.tryItem. unfold bind at 1. rewrite liftW_run, findOne_run.
  destruct (faults w Products (calls w Products)) eqn:Hf0; cbn [fst snd].
  { eexists _, _, _. split; [reflexivity|]. apply productStep_frame; cbn; auto. }
  set (w0 := tick Products w).
  destruct (find _ (products w)) as [existing|] eqn:Hfind.
  - apply find_some in Hfind. destruct Hfind as [Hin _].
    unfold bind at 1. rewrite liftW_run. cbn [fst snd now gets].
    unfold bind at 1. rewrite liftW_run, save_run.
    destruct (ProductModel.pathErrors _) eqn:Hval; cbn [fst snd].
    2:{ eexists _, _, _. split; [reflexivity|]. apply productStep_frame; cbn; auto. }
    destruct (faults w0 Products (calls w0 Products)); cbn [fst snd].
    { eexists _, _, _. split; [reflexivity|]. apply productStep_frame; cbn; auto. }
    destruct (existsb _ (products w0)) eqn:Hdup; cbn [fst snd].
    { eexists _, _, _. split; [reflexivity|]. apply productStep_frame; cbn; auto. }
    unfold bind at 1. unfold Sync.incUpdated at 1, modify at 1. cbn [fst snd].
    unfold bind at 1. rewrite liftW_run.
    match goal with |- context [SyncLogModel.createLog ?d ?w1] =>
      destruct (createLog_frame d w1) as (x & w2 & Hrun & Hp & Hfl & Hn);
      rewrite Hrun; cbn [fst snd] end.
    assert (Hstep : productStep req w w2).
    { split; [cbn in Hn; exact Hn|]. split; [rewrite Hfl; reflexivity|].
      right. eexists. split; [|rewrite Hp; reflexivity].
      split; [exact Hval|]. split; [exact Hdup|]. split; [reflexivity|].
      right. exists existing. split; [exact Hin | reflexivity]. }
    destruct x; eexists _, _, _; (split; [reflexivity | exact Hstep]).
  - unfold bind at 1. rewrite liftW_run. cbn [fst snd newObjectId].
    unfold bind at 1. rewrite liftW_run. cbn [fst snd now gets].
    unfold bind at 1. rewrite liftW_run, save_run.
    destruct (ProductModel.pathErrors _) eqn:Hval; cbn [fst snd].
    2:{ eexists _, _, _. split; [reflexivity|]. apply productStep_frame; cbn; auto. }
    destruct (faults (bumpId w0) Products (calls (bumpId w0) Products)); cbn [fst snd].
    { eexists _, _, _. split; [reflexivity|]. apply productStep_frame; cbn; auto. }
    destruct (existsb _ (products (bumpId w0))) eqn:Hdup; cbn [fst snd].
    { eexists _, _, _. split; [reflexivity|]. apply productStep_frame; cbn; auto. }
    unfold bind at 1. unfold Sync.incCreated at 1, modify at 1. cbn [fst snd].
    unfold bind at 1. rewrite liftW_run.
    match goal with |- context [SyncLogModel.createLog ?d ?w1] =>
      destruct (createLog_frame d w1) as (x & w2 & Hrun & Hp & Hfl & Hn);
      rewrite Hrun; cbn [fst snd] end.
    assert (Hstep : productStep req w w2).
    { cbn in Hn. split; [lia|]. split; [rewrite Hfl; reflexivity|].
      right. eexists. split; [|rewrite Hp; reflexivity].
      split; [exact Hval|]. split; [exact Hdup|]. split; [reflexivity|].
      left. cbn. lia. }
    destruct x; eexists _, _, _; (split; [reflexivity | exact Hstep]).
Qed.

(** The [catch] block writes no product. *)
Lemma catchItem_step req pd e w r :
  exists x w1 r1, Sync.catchItem req (Obj pd) e (w, r) = (x, (w1, r1)) /\ productStep req w w1.
Proof.
  unfold Sync.catchItem.
  unfold bind at 1. unfold Sync.incErrors at 1, modify at 1. cbn [fst snd].
  unfold bind at 1. rewrite liftW_run.
  destruct (createLog_frame (Sync.errorLog req pd e) w) as (x & w2 & Hrun & Hp & Hfl & Hn).
  rewrite Hrun. cbn [fst snd].
  destruct x; eexists _, _, _; (split; [reflexivity|]); apply productStep_frame; auto.
Qed.

Lemma syncItem_steps req item w r :
  exists x w1 r1, Sync.syncItem req item (w, r) = (x, (w1, r1)) /\ productSteps req w w1.
Proof.
  destruct item as [|pd].
  { rewrite syncItem_null. eexists _, _, _. split; [reflexivity | apply StepsDone]. }
  unfold Sync.syncItem, tryCatch.
  destruct (tryItem_step req pd w r) as (x & w1 & r1 & Hrun & Hstep). rewrite Hrun.
  destruct x as [e|[]].
  - destruct (catchItem_step req pd e w1 r1) as (y & w2 & r2 & Hrun2 & Hstep2).
    rewrite Hrun2. eexists _, _, _. split; [reflexivity|].
    eapply StepsNext; [exact Hstep | apply productSteps_one, Hstep2].
  - eexists _, _, _. split; [reflexivity | apply productSteps_one, Hstep].
Qed.

Lemma syncLoop_steps req items : forall w r,
  exists x w1 r1, Sync.syncLoop req items (w, r) = (x, (w1, r1)) /\ productSteps req w w1.
Proof.
  induction items as [|pd rest IH]; intros w r.
  - eexists _, _, _. split; [reflexivity | apply StepsDone].
  - cbn [Sync.syncLoop]. unfold bind.
    destruct (syncItem_steps req pd w r) as (x & w1 & r1 & Hrun & Hs). rewrite Hrun.
    destruct x as [e|[]].
    + eexists _, _, _. split; [reflexivity | exact Hs].
    + destruct (IH w1 r1) as (y & w2 & r2 & Hrun2 & Hs2). rewrite Hrun2.
      eexists _, _, _. split; [reflexivity|]. eapply productSteps_trans; eassumption.
Qed.

(** Whatever the request and whatever the stores do, the handler changes the
    product collection by a sequence of valid writes only. *)
Lemma handler_steps req w : productSteps req w (snd (Sync.handler req w)).
Proof.
  unfold Sync.handler. destruct (Sync.body_products req) as [items|]; [|apply StepsDone].
  unfold Sync.syncBody.
  unfold bind at 1. rewrite liftW_run. cbn [fst snd now gets].
  unfold bind at 1. rewrite liftW_run.
  destruct (createLog_frame (Sync.startLog req (List.length items)) w)
    as (x & w1 & Hrun & Hp & Hfl & Hn).
  rewrite Hrun. cbn [fst snd].
  assert (H1 : productSteps req w w1) by (apply productSteps_one, productStep_frame; auto).
  destruct x as [e|start]; [exact H1|].
  unfold bind at 1.
  destruct (syncLoop_steps req items w1 (Sync.initialResults items))
    as (x & w2 & r2 & Hloop & H2).
  rewrite Hloop.
  assert (H12 : productSteps req w w2) by (eapply productSteps_trans; eassumption).
  destruct x as [e|[]]; [exact H12|].
  unfold bind at 1. rewrite liftW_run. cbn [fst snd now gets].
  unfold bind at 1. cbn [fst snd gets].
  unfold bind at 1. rewrite liftW_run.
  match goal with |- context [SyncLogModel.createLog ?d w2] =>
    destruct (createLog_frame d w2) as (x & w3 & Hrun3 & Hp3 & Hfl3 & Hn3);
    rewrite Hrun3; cbn [fst snd] end.
  assert (H3 : productSteps req w w3).
  { eapply productSteps_trans; [exact H12|].
    apply productSteps_one, productStep_frame; auto. }
  destruct x; exact H3.
Qed.

Lemma upsert_keeps_ids p ps id :
  In id (map p_id ps) -> In id (map p_id (ProductModel.upsert p ps)).
Proof.
  induction ps as [|q r IH]; cbn; [tauto|].
  destruct (Nat.eqb_spec (p_id q) (p_id p)) as [E|E]; cbn.
  - intros [H|H]; [left; congruence | right; exact H].
  - intros [H|H]; [left; exact H | right; apply IH, H].
Qed.

Lemma productSteps_keep_ids req w w' id :
  productSteps req w w' -> In id (map p_id (products w)) -> In id (map p_id (products w')).
Proof.
  induction 1 as [|w w1 w2 (_ & _ & [Hp | (p & _ & Hp)]) _ IH]; intros Hin;
    [exact Hin | apply IH; rewrite Hp; exact Hin |].
  apply IH. rewrite Hp. apply upsert_keeps_ids, Hin.
Qed.

(** X3.  POST /sync never removes a product: every document of the product
    collection is still there afterwards, under the same id, whatever the
    request and whatever the stores do. *)
Theorem sync_never_removes_a_product (req : Sync.Request) (w : World) (p : Product) :
  In p (products w) ->
  exists p', In p' (products (snd (Sync.handler req w))) /\ p_id p' = p_id p.
Proof.
  intros Hin.
  assert (H : In (p_id p) (map p_id (products (snd (Sync.handler req w))))).
  { eapply productSteps_keep_ids; [apply handler_steps | apply in_map, Hin]. }
  apply in_map_iff in H. destruct H as (p' & Hid & Hin'). eauto.
Qed.

Lemma sync_never_removes_a_product_witness :
  In widgetInStock (products stockedStore)
  /\ exists p', In p' (products (snd (Sync.handler (syncRequest None [noSku; widget])
                                       stockedStore)))
               /\ p_id p' = p_id widgetInStock.
Proof.
  assert (H : In widgetInStock (products stockedStore)) by (left; reflexivity).
  split; [exact H|].
  exact (sync_never_removes_a_product (syncRequest None [noSku; widget]) stockedStore
           widgetInStock H).
Defined.


Lemma skuMatches_iff k q : ProductModel.skuMatches k q = true <-> p_sku q = k.
Proof.
  unfold ProductModel.skuMatches. destruct k as [s|], (p_sku q) as [s'|]; split;
    try discriminate; try reflexivity.
  - intros H. apply String.eqb_eq in H. congruence.
  - intros H. inversion H. apply String.eqb_refl.
Qed.

Lemma upsert_fresh p ps :
  ~ In (p_id p) (map p_id ps) -> ProductModel.upsert p ps = (ps ++ [p])%list.
Proof.
  induction ps as [|q r IH]; cbn; [reflexivity|]. intros Hn.
  destruct (Nat.eqb_spec (p_id q) (p_id p)) as [E|E]; [tauto|].
  rewrite IH; [reflexivity | tauto].
Qed.

Lemma upsert_replace p ps ex :
  In ex ps -> p_id ex = p_id p -> NoDup (map p_id ps) ->
  exists l1 l2, ps = (l1 ++ ex :: l2)%list
                /\ ProductModel.upsert p ps = (l1 ++ p :: l2)%list.
Proof.
  induction ps as [|q r IH]; cbn; [tauto|]. intros Hin Hid Hnd.
  inversion Hnd as [|? ? Hq Hr]; subst.
  destruct (Nat.eqb_spec (p_id q) (p_id p)) as [E|E].
  - destruct Hin as [->|Hin].
    + exists [], r. split; reflexivity.
    + exfalso. apply Hq. rewrite E, <- Hid. apply in_map, Hin.
  - destruct Hin as [->|Hin]; [congruence|].
    destruct (IH Hin Hid Hr) as (l1 & l2 & -> & ->).
    exists (q :: l1), l2. split; reflexivity.
Qed.

Lemma no_duplicate_sku p ps q :
  existsb (duplicateOf p) ps = false -> In q ps -> p_id q <> p_id p ->
  p_sku q <> p_sku p.
Proof.
  intros Hdup Hin Hid Hsku.
  assert (H : existsb (duplicateOf p) ps = true).
  { apply existsb_exists. exists q. split; [exact Hin|].
    unfold duplicateOf. apply andb_true_iff. split.
    - apply skuMatches_iff, Hsku.
    - apply negb_true_iff, Nat.eqb_neq, Hid. }
  congruence.
Qed.

Lemma storeOk_frame w w1 :
  products w1 = products w -> (nextId w <= nextId w1)%nat -> storeOk w -> storeOk w1.
Proof.
  intros Hp Hn (Hid & Hsku & Hlt & Hval). unfold storeOk. rewrite Hp.
  repeat split; try assumption.
  eapply Forall_impl; [|exact Hlt]. cbn. intros; lia.
Qed.

(** One valid write keeps the collection well formed. *)
Lemma productStep_ok req w w1 : productStep req w w1 -> storeOk w -> storeOk w1.
Proof.
  intros (Hn & _ & [Hp | (p & (Hval & Hdup & _ & Hwhich) & Hp)]) Hok.
  { eapply storeOk_frame; eassumption. }
  destruct Hok as (Hid & Hsku & Hlt & Hvalid). unfold storeOk. rewrite Hp.
  destruct Hwhich as [Hfresh | (ex & Hin & Hex)].
  - assert (Hnot : ~ In (p_id p) (map p_id (products w))).
    { intros H. apply in_map_iff in H. destruct H as (q & Hq & Hinq).
      rewrite Forall_forall in Hlt. specialize (Hlt q Hinq). lia. }
    rewrite (upsert_fresh _ _ Hnot), !map_app. cbn [map].
    split; [|split; [|split]].
    + apply NoDup_app; [exact Hid | repeat constructor; cbn; tauto |].
      intros id H1 [<-|[]]. exact (Hnot H1).
    + apply NoDup_app; [exact Hsku | repeat constructor; cbn; tauto |].
      intros k H1 [<-|[]]. apply in_map_iff in H1. destruct H1 as (q & Hq & Hinq).
      refine (no_duplicate_sku p _ q Hdup Hinq _ Hq).
      intros E. apply Hnot. rewrite <- E. apply in_map, Hinq.
    + apply Forall_app. split.
      * eapply Forall_impl; [|exact Hlt]. cbn. intros; lia.
      * repeat constructor. lia.
    + apply Forall_app. split; [exact Hvalid | repeat constructor; exact Hval].
  - destruct (upsert_replace p _ ex Hin Hex Hid) as (l1 & l2 & Hps & Hup).
    rewrite Hup. rewrite Hps in *. rewrite !map_app in *. cbn [map] in *.
    assert (Hother : forall q, In q l1 \/ In q l2 -> p_id q <> p_id p).
    { intros q Hq. rewrite <- Hex. intros E.
      apply NoDup_remove_2 in Hid. apply Hid. rewrite <- E.
      apply in_or_app. destruct Hq as [Hq|Hq]; [left | right]; apply in_map, Hq. }
    split; [|split; [|split]].
    + rewrite <- Hex. exact Hid.
    + pose proof (NoDup_remove_1 _ _ _ Hsku) as H1.
      apply NoDup_Add with (a := p_sku p) (l := (map p_sku l1 ++ map p_sku l2)%list).
      * apply Add_app.
      * split; [exact H1|]. intros H. apply in_app_or in H.
        destruct H as [H|H]; apply in_map_iff in H; destruct H as (q & Hq & Hinq).
        -- refine (no_duplicate_sku p _ q Hdup _ _ Hq);
             [apply in_or_app; left; exact Hinq | apply Hother; left; exact Hinq].
        -- refine (no_duplicate_sku p _ q Hdup _ _ Hq);
             [apply in_or_app; right; right; exact Hinq | apply Hother; right; exact Hinq].
    + apply Forall_app in Hlt. destruct Hlt as [Hl1 Hl2].
      inversion Hl2 as [|? ? Hexlt Hl2']; subst.
      apply Forall_app. split.
      * eapply Forall_impl; [|exact Hl1]. cbn. intros; lia.
      * constructor; [lia|]. eapply Forall_impl; [|exact Hl2']. cbn. intros; lia.
    + apply Forall_app in Hvalid. destruct Hvalid as [Hv1 Hv2].
      inversion Hv2; subst. apply Forall_app. split; [exact Hv1|].
      constructor; assumption.
Qed.

Lemma productSteps_ok req w w' : productSteps req w w' -> storeOk w -> storeOk w'.
Proof.
  induction 1 as [|w w1 w2 Hs _ IH]; intros Hok; [exact Hok|].
  apply IH. eapply productStep_ok; eassumption.
Qed.

(** X4.  POST /sync keeps the product collection well formed, whatever the
    request and whatever the stores do: afterwards two products with the
    same sku are the same document, ids are still unique, and every stored
    product still passes the schema. *)
Theorem sync_keeps_skus_unique (req : Sync.Request) (w : World) :
  storeOk w ->
  let w' := snd (Sync.handler req w) in
  storeOk w'
  /\ forall p1 p2, In p1 (products w') -> In p2 (products w') ->
       p_sku p1 = p_sku p2 -> p1 = p2.
Proof.
  intros Hok w'.
  assert (Hok' : storeOk w') by (eapply productSteps_ok; [apply handler_steps | exact Hok]).
  split; [exact Hok'|]. destruct Hok' as (_ & Hsku & _).
  intros p1 p2 H1 H2 E. revert H1 H2 E Hsku. generalize (products w').
  induction l as [|q r IH]; cbn; [tauto|]. intros H1 H2 E Hnd.
  inversion Hnd as [|? ? Hq Hr]; subst.
  destruct H1 as [->|H1], H2 as [->|H2]; [reflexivity | | |apply IH; assumption].
  - exfalso. apply Hq. rewrite E. apply in_map, H2.
  - exfalso. apply Hq. rewrite <- E. apply in_map, H1.
Qed.

Lemma sync_keeps_skus_unique_witness :
  storeOk emptyStore
  /\ storeOk (snd (Sync.handler (syncRequest None [widget; widget; noSku]) emptyStore)).
Proof.
  assert (H : storeOk emptyStore).
  { unfold storeOk. cbn. repeat split; constructor. }
  split; [exact H|].
  exact (proj1 (sync_keeps_skus_unique (syncRequest None [widget; widget; noSku])
                  emptyStore H)).
Defined.






(** ** The audit trail of a batch *)





(** ** Running a batch twice *)

Lemma pathErrors_parts p :
  ProductModel.pathErrors p = [] <->
  JS.truthy (p_name p) = true /\ JS.truthy (p_sku p) = true
  /\ match p_price p with Some q => ProductModel.nonNegative q | None => false end = true
  /\ JS.truthy (p_category p) = true
  /\ ProductModel.nonNegative (p_stock p) = true
  /\ inEnum ProductModel.statusEnum (p_status p) = true
  /\ optionalEnum ProductModel.syncSourceEnum (p_syncSource p) = true
  /\ inEnum ProductModel.syncStatusEnum (p_syncStatus p) = true.
Proof.
  unfold ProductModel.pathErrors.
  split.
  - intros H.
    apply app_eq_nil in H; destruct H as [H1 H].
    apply app_eq_nil in H; destruct H as [H2 H].
    apply app_eq_nil in H; destruct H as [H3 H].
    apply app_eq_nil in H; destruct H as [H4 H].
    apply app_eq_nil in H; destruct H as [H5 H].
    apply app_eq_nil in H; destruct H as [H6 H].
    apply app_eq_nil in H; destruct H as [H7 H8].
    rewrite check_nil in *. repeat split; assumption.
  - intros (H1 & H2 & H3 & H4 & H5 & H6 & H7 & H8).
    rewrite H1, H2, H3, H4, H5, H6, H7, H8. reflexivity.
Qed.


















(** ** Grouping and sorting *)

Section Groups.

Context {K : Type} (eqb : K -> K -> bool).

Lemma addTo_tally k n (gs : list (K * nat)) :
  tally (LogViews.addTo eqb k n gs) = (tally gs + n)%nat.
Proof.
  unfold tally, list_sum. induction gs as [|[k' c] r IH]; cbn; [lia|].
  destruct (eqb k' k); cbn; [lia|]. rewrite IH. lia.
Qed.

Lemma countBy_tally {A} (key : A -> K) (l : list A) :
  tally (LogViews.countBy eqb key l) = List.length l.
Proof.
  unfold LogViews.countBy.
  assert (H : forall acc, tally (fold_left (fun groups x => LogViews.addTo eqb (key x) 1 groups)
                                   l acc) = (tally acc + List.length l)%nat).
  { induction l as [|x r IH]; intros acc; cbn [fold_left List.length]; [lia|].
    rewrite IH, addTo_tally. lia. }
  rewrite H. reflexivity.
Qed.

Lemma addTo_positive k n (gs : list (K * nat)) :
  (1 <= n)%nat -> Forall (fun g => (1 <= snd g)%nat) gs ->
  Forall (fun g => (1 <= snd g)%nat) (LogViews.addTo eqb k n gs).
Proof.
  intros Hn. induction gs as [|[k' c] r IH]; cbn; intros H.
  - constructor; [exact Hn | constructor].
  - inversion H as [|? ? Hc Hr]; subst. cbn in Hc.
    destruct (eqb k' k); constructor; cbn; try lia; auto.
Qed.

Lemma countBy_positive {A} (key : A -> K) (l : list A) :
  Forall (fun g => (1 <= snd g)%nat) (LogViews.countBy eqb key l).
Proof.
  unfold LogViews.countBy.
  assert (H : forall acc, Forall (fun g : K * nat => (1 <= snd g)%nat) acc ->
            Forall (fun g => (1 <= snd g)%nat)
              (fold_left (fun groups x => LogViews.addTo eqb (key x) 1 groups) l acc)).
  { induction l as [|x r IH]; intros acc Hacc; cbn; [exact Hacc|].
    apply IH, addTo_positive; [lia | exact Hacc]. }
  apply H. constructor.
Qed.

(** What a selection of keys gains when one more value is counted; the
    selection must not tell apart keys that the grouping identifies. *)
Lemma addTo_share (sel : K -> bool) k n (gs : list (K * nat)) :
  (forall a b, eqb a b = true -> sel a = sel b) ->
  share sel (LogViews.addTo eqb k n gs)
  = (share sel gs + if sel k then n else 0)%nat.
Proof.
  intros Hsel. unfold share, tally, list_sum.
  induction gs as [|[k' c] r IH]; cbn.
  - destruct (sel k); cbn; lia.
  - destruct (eqb k' k) eqn:E; cbn.
    + rewrite <- (Hsel _ _ E). destruct (sel k'); cbn; lia.
    + destruct (sel k'); cbn; rewrite IH; lia.
Qed.

Lemma countBy_share {A} (sel : K -> bool) (key : A -> K) (l : list A) :
  (forall a b, eqb a b = true -> sel a = sel b) ->
  share sel (LogViews.countBy eqb key l)
  = List.length (filter (fun x => sel (key x)) l).
Proof.
  intros Hsel. unfold LogViews.countBy.
  assert (H : forall acc,
            share sel (fold_left (fun groups x => LogViews.addTo eqb (key x) 1 groups) l acc)
            = (share sel acc + List.length (filter (fun x => sel (key x)) l))%nat).
  { induction l as [|x r IH]; intros acc; cbn [fold_left List.length filter]; [lia|].
    rewrite IH, addTo_share by exact Hsel.
    destruct (sel (key x)); cbn [List.length]; lia. }
  rewrite H. reflexivity.
Qed.

Hypothesis eqb_eq : forall a b, eqb a b = true <-> a = b.

Lemma addTo_keys k n (gs : list (K * nat)) :
  NoDup (map fst gs) -> NoDup (map fst (LogViews.addTo eqb k n gs)).
Proof.
  assert (Hin : forall x gs', In x (map fst (LogViews.addTo eqb k n gs')) ->
                  x = k \/ In x (map fst gs')).
  { intros x gs'. induction gs' as [|[k' c] r IH]; cbn.
    - intros [<-|[]]. left. reflexivity.
    - destruct (eqb k' k); cbn; [tauto|]. intros [<-|H]; [tauto|].
      destruct (IH H); tauto. }
  induction gs as [|[k' c] r IH]; cbn; intros H.
  - constructor; [intros [] | constructor].
  - inversion H as [|? ? Hk Hr]; subst.
    destruct (eqb k' k) eqn:E; cbn; [constructor; assumption|].
    constructor; [|apply IH, Hr].
    intros Hc. destruct (Hin _ _ Hc) as [->|Hc']; [|exact (Hk Hc')].
    assert (eqb k k = true) by (apply eqb_eq; reflexivity). congruence.
Qed.

Lemma countBy_keys {A} (key : A -> K) (l : list A) :
  NoDup (map fst (LogViews.countBy eqb key l)).
Proof.
  unfold LogViews.countBy.
  assert (H : forall acc : list (K * nat), NoDup (map fst acc) ->
            NoDup (map fst (fold_left (fun groups x => LogViews.addTo eqb (key x) 1 groups)
                              l acc))).
  { induction l as [|x r IH]; intros acc Hacc; cbn; [exact Hacc|].
    apply IH, addTo_keys, Hacc. }
  apply H. constructor.
Qed.

(** With distinct keys, the share of one key is the count of its group. *)
Lemma share_of_group (gs : list (K * nat)) g :
  NoDup (map fst gs) -> In g gs -> share (fun k => eqb k (fst g)) gs = snd g.
Proof.
  unfold share, tally, list_sum. induction gs as [|h r IH]; cbn; [tauto|].
  intros Hnd Hin. inversion Hnd as [|? ? Hh Hr]; subst.
  destruct Hin as [->|Hin].
  - assert (E : eqb (fst g) (fst g) = true) by (apply eqb_eq; reflexivity).
    rewrite E. cbn.
    assert (Hz : forall r', ~ In (fst g) (map fst r') ->
                   filter (fun g0 : K * nat => eqb (fst g0) (fst g)) r' = []).
    { induction r' as [|x r' IHr]; cbn; [reflexivity|]. intros Hn.
      destruct (eqb (fst x) (fst g)) eqn:Ex.
      - exfalso. apply Hn. left. apply eqb_eq, Ex.
      - apply IHr. tauto. }
    rewrite (Hz r Hh). cbn. lia.
  - destruct (eqb (fst h) (fst g)) eqn:E.
    + exfalso. apply Hh. apply eqb_eq in E. rewrite E. apply in_map, Hin.
    + apply IH; assumption.
Qed.

End Groups.

Lemma insertByCount_perm {K} (g : K * nat) gs :
  Permutation (LogViews.insertByCount g gs) (g :: gs).
Proof.
  induction gs as [|h t IH]; cbn [LogViews.insertByCount]; [reflexivity|].
  destruct (snd h <? snd g)%nat; [reflexivity|].
  rewrite IH. apply perm_swap.
Qed.

Lemma sortByCount_perm {K} (gs : list (K * nat)) :
  Permutation (LogViews.sortByCount gs) gs.
Proof.
  induction gs as [|g r IH]; cbn [LogViews.sortByCount fold_right]; [reflexivity|].
  fold (LogViews.sortByCount r).
  rewrite insertByCount_perm. constructor. exact IH.
Qed.

Lemma sortByCount_descending {K} (gs : list (K * nat)) :
  descending (LogViews.sortByCount gs).
Proof.
  unfold descending.
  induction gs as [|g r IH]; cbn [LogViews.sortByCount fold_right]; [constructor|].
  fold (LogViews.sortByCount r).
  revert IH. generalize (LogViews.sortByCount r). intros l.
  induction l as [|h t IHl]; cbn [LogViews.insertByCount]; intros Hs.
  - constructor; constructor.
  - inversion Hs as [|? ? Ht Hh]; subst.
    destruct (Nat.ltb_spec (snd h) (snd g)).
    + constructor; [exact Hs|]. constructor; [lia|].
      eapply Forall_impl; [|exact Hh]. cbn. intros; lia.
    + constructor; [apply IHl, Ht|].
      eapply Permutation_Forall; [symmetry; apply insertByCount_perm|].
      constructor; [lia | exact Hh].
Qed.

(** The groups that a [$group] / [$sort] pipeline reports. *)
Lemma groups_report {A K} (eqb : K -> K -> bool) (key : A -> K) (l : list A) :
  (forall a b, eqb a b = true <-> a = b) ->
  let gs := LogViews.sortByCount (LogViews.countBy eqb key l) in
  tally gs = List.length l
  /\ Forall (fun g => snd g = List.length (filter (fun x => eqb (key x) (fst g)) l)
                      /\ (1 <= snd g)%nat) gs
  /\ NoDup (map fst gs)
  /\ descending gs.
Proof.
  intros Heq gs.
  assert (Hp : Permutation gs (LogViews.countBy eqb key l)) by apply sortByCount_perm.
  split; [|split; [|split]].
  - unfold tally. rewrite (Permutation_list_sum (Permutation_map snd Hp)).
    apply countBy_tally.
  - eapply Permutation_Forall; [symmetry; exact Hp|].
    apply Forall_forall. intros g Hg. split.
    + rewrite <- (countBy_share eqb (fun k => eqb k (fst g))).
      * symmetry. apply share_of_group; [exact Heq | apply countBy_keys, Heq | exact Hg].
      * intros a b E. apply Heq in E. rewrite E. reflexivity.
    + pose proof (countBy_positive eqb key l) as Hpos.
      rewrite Forall_forall in Hpos. apply Hpos, Hg.
  - eapply Permutation_NoDup; [symmetry; apply Permutation_map, Hp|].
    apply countBy_keys, Heq.
  - apply sortByCount_descending.
Qed.

(** ** The order of date strings *)

Lemma ascii_compare_lt_trans a b c :
  Ascii.compare a b = Lt -> Ascii.compare b c = Lt -> Ascii.compare a c = Lt.
Proof.
  unfold Ascii.compare. rewrite !N.compare_lt_iff. lia.
Qed.

Lemma ascii_compare_refl a : Ascii.compare a a = Eq.
Proof. unfold Ascii.compare. apply N.compare_refl. Qed.

Lemma string_compare_lt_trans s1 : forall s2 s3,
  String.compare s1 s2 = Lt -> String.compare s2 s3 = Lt -> String.compare s1 s3 = Lt.
Proof.
  induction s1 as [|a s1 IH]; intros [|b s2] [|c s3]; cbn; try congruence.
  destruct (Ascii.compare a b) eqn:Eab; try discriminate;
    destruct (Ascii.compare b c) eqn:Ebc; try discriminate; intros H1 H2.
  - apply Ascii.compare_eq_iff in Eab, Ebc. subst. rewrite ascii_compare_refl.
    eapply IH; eassumption.
  - apply Ascii.compare_eq_iff in Eab. subst. rewrite Ebc. reflexivity.
  - apply Ascii.compare_eq_iff in Ebc. subst. rewrite Eab. reflexivity.
  - rewrite (ascii_compare_lt_trans _ _ _ Eab Ebc). reflexivity.
Qed.

Lemma ltb_trans s1 s2 s3 :
  String.ltb s1 s2 = true -> String.ltb s2 s3 = true -> String.ltb s1 s3 = true.
Proof.
  unfold String.ltb.
  destruct (String.compare s1 s2) eqn:E1; try discriminate.
  destruct (String.compare s2 s3) eqn:E2; try discriminate.
  rewrite (string_compare_lt_trans _ _ _ E1 E2). reflexivity.
Qed.

Lemma leb_ltb s1 s2 : String.leb s1 s2 = true -> s1 <> s2 -> String.ltb s1 s2 = true.
Proof.
  unfold String.leb, String.ltb.
  destruct (String.compare s1 s2) eqn:E; try discriminate; [|reflexivity].
  intros _ Hne. exfalso. apply Hne, String.compare_eq_iff, E.
Qed.

Lemma not_leb_ltb s1 s2 : String.leb s1 s2 = false -> String.ltb s2 s1 = true.
Proof.
  unfold String.leb, String.ltb. rewrite (String.compare_antisym s2 s1).
  destruct (String.compare s1 s2); cbn; congruence.
Qed.

(** ** The timeline pipeline *)

Lemma insertByDate_perm b bs : Permutation (LogViews.insertByDate b bs) (b :: bs).
Proof.
  induction bs as [|h t IH]; cbn [LogViews.insertByDate]; [reflexivity|].
  destruct (String.leb _ _); [reflexivity|].
  rewrite IH. apply perm_swap.
Qed.

Lemma sortByDate_perm bs : Permutation (LogViews.sortByDate bs) bs.
Proof.
  induction bs as [|b r IH]; cbn [LogViews.sortByDate fold_right]; [reflexivity|].
  fold (LogViews.sortByDate r). rewrite insertByDate_perm. constructor. exact IH.
Qed.

Lemma insertByDate_ascending b bs :
  ~ In (LogViews.b_date b) (map LogViews.b_date bs) ->
  ascendingDates bs -> ascendingDates (LogViews.insertByDate b bs).
Proof.
  unfold ascendingDates.
  induction bs as [|h t IH]; cbn [LogViews.insertByDate map]; intros Hn Hs.
  - constructor; constructor.
  - inversion Hs as [|? ? Ht Hh]; subst.
    destruct (String.leb (LogViews.b_date b) (LogViews.b_date h)) eqn:E.
    + assert (Hlt : String.ltb (LogViews.b_date b) (LogViews.b_date h) = true).
      { apply leb_ltb; [exact E|]. intros Heq. apply Hn. left. symmetry. exact Heq. }
      constructor; [exact Hs|]. constructor; [exact Hlt|].
      eapply Forall_impl; [|exact Hh]. cbn. intros x Hx. eapply ltb_trans; eassumption.
    + constructor.
      * apply IH; [|exact Ht]. intros Hc. apply Hn. right. exact Hc.
      * eapply Permutation_Forall; [symmetry; apply insertByDate_perm|].
        constructor; [apply not_leb_ltb, E | exact Hh].
Qed.

Lemma sortByDate_ascending bs :
  NoDup (map LogViews.b_date bs) -> ascendingDates (LogViews.sortByDate bs).
Proof.
  induction bs as [|b r IH]; cbn [LogViews.sortByDate fold_right map]; intros Hnd.
  - constructor.
  - fold (LogViews.sortByDate r). inversion Hnd as [|? ? Hb Hr]; subst.
    apply insertByDate_ascending; [|apply IH, Hr].
    intros Hc. apply Hb.
    eapply Permutation_in; [apply Permutation_map, sortByDate_perm | exact Hc].
Qed.


Lemma pushLevel_dates date level count bs x :
  In x (map LogViews.b_date (LogViews.pushLevel date level count bs)) ->
  x = date \/ In x (map LogViews.b_date bs).
Proof.
  induction bs as [|b r IH]; cbn.
  - intros [<-|[]]. left. reflexivity.
  - destruct (String.eqb (LogViews.b_date b) date); cbn; [tauto|].
    intros [<-|H]; [tauto|]. destruct (IH H); tauto.
Qed.

Lemma pushLevel_nodup date level count bs :
  NoDup (map LogViews.b_date bs) ->
  NoDup (map LogViews.b_date (LogViews.pushLevel date level count bs)).
Proof.
  induction bs as [|b r IH]; cbn; intros H.
  - constructor; [intros [] | constructor].
  - inversion H as [|? ? Hb Hr]; subst.
    destruct (String.eqb (LogViews.b_date b) date) eqn:E; cbn; [constructor; assumption|].
    constructor; [|apply IH, Hr].
    intros Hc. destruct (pushLevel_dates _ _ _ _ _ Hc) as [Hd|Hc']; [|exact (Hb Hc')].
    rewrite Hd, String.eqb_refl in E. discriminate.
Qed.

Lemma pushLevel_ok date level count bs :
  (1 <= count)%nat -> Forall bucketOk bs ->
  Forall bucketOk (LogViews.pushLevel date level count bs).
Proof.
  intros Hc. induction bs as [|b r IH]; cbn; intros H.
  - constructor; [|constructor]. unfold bucketOk, tally. cbn. lia.
  - inversion H as [|? ? Hb Hr]; subst.
    destruct (String.eqb (LogViews.b_date b) date); constructor; auto.
    destruct Hb as [Ht Hp]. unfold bucketOk, tally in *. cbn.
    rewrite map_app, list_sum_app. cbn. lia.
Qed.

Lemma pushLevel_total date level count bs :
  list_sum (map LogViews.b_total (LogViews.pushLevel date level count bs))
  = (list_sum (map LogViews.b_total bs) + count)%nat.
Proof.
  unfold list_sum. induction bs as [|b r IH]; cbn; [lia|].
  destruct (String.eqb (LogViews.b_date b) date); cbn; [lia|]. rewrite IH. lia.
Qed.

Lemma pushLevel_dayTotal d date level count bs :
  dayTotal d (LogViews.pushLevel date level count bs)
  = (dayTotal d bs + if String.eqb date d then count else 0)%nat.
Proof.
  unfold dayTotal, list_sum. induction bs as [|b r IH]; cbn.
  - destruct (String.eqb date d); cbn; lia.
  - destruct (String.eqb (LogViews.b_date b) date) eqn:E; cbn.
    + apply String.eqb_eq in E. rewrite E.
      destruct (String.eqb date d); cbn; lia.
    + destruct (String.eqb (LogViews.b_date b) d); cbn; rewrite IH; lia.
Qed.

Lemma byDate_report (groups : list ((string * string) * nat)) :
  Forall (fun g => (1 <= snd g)%nat) groups ->
  let bs := LogViews.byDate groups in
  NoDup (map LogViews.b_date bs)
  /\ Forall bucketOk bs
  /\ list_sum (map LogViews.b_total bs) = tally groups
  /\ forall d, dayTotal d bs = share (fun k => String.eqb (fst k) d) groups.
Proof.
  unfold LogViews.byDate.
  assert (H : forall acc,
            Forall (fun g : (string * string) * nat => (1 <= snd g)%nat) groups ->
            NoDup (map LogViews.b_date acc) -> Forall bucketOk acc ->
            let bs := fold_left
                        (fun bs g => LogViews.pushLevel (fst (fst g)) (snd (fst g)) (snd g) bs)
                        groups acc in
            NoDup (map LogViews.b_date bs)
            /\ Forall bucketOk bs
            /\ list_sum (map LogViews.b_total bs)
               = (list_sum (map LogViews.b_total acc) + tally groups)%nat
            /\ forall d, dayTotal d bs
                         = (dayTotal d acc
                            + share (fun k => String.eqb (fst k) d) groups)%nat).
  { induction groups as [|g r IH]; intros acc Hpos Hnd Hok; cbn [fold_left].
    - unfold share, tally. cbn. repeat split; auto; intros; lia.
    - inversion Hpos as [|? ? Hg Hr]; subst.
      destruct (IH (LogViews.pushLevel (fst (fst g)) (snd (fst g)) (snd g) acc) Hr
                  (pushLevel_nodup _ _ _ _ Hnd) (pushLevel_ok _ _ _ _ Hg Hok))
        as (H1 & H2 & H3 & H4).
      split; [exact H1|]. split; [exact H2|]. split.
      + rewrite H3, pushLevel_total. unfold tally, list_sum. cbn. lia.
      + intros d. rewrite H4, pushLevel_dayTotal. unfold share, tally, list_sum. cbn.
        destruct (String.eqb (fst (fst g)) d); cbn; lia. }
  intros Hpos. destruct (H [] Hpos) as (H1 & H2 & H3 & H4);
    [constructor | constructor |].
  split; [exact H1|]. split; [exact H2|]. split; [exact H3|].
  intros d. rewrite H4. reflexivity.
Qed.

Lemma dayTotal_of_bucket bs b :
  NoDup (map LogViews.b_date bs) -> In b bs ->
  dayTotal (LogViews.b_date b) bs = LogViews.b_total b.
Proof.
  unfold dayTotal, list_sum. induction bs as [|h r IH]; cbn; [tauto|].
  intros Hnd Hin. inversion Hnd as [|? ? Hh Hr]; subst.
  destruct Hin as [->|Hin].
  - rewrite String.eqb_refl. cbn.
    assert (Hz : forall r', ~ In (LogViews.b_date b) (map LogViews.b_date r') ->
                   filter (fun b0 => String.eqb (LogViews.b_date b0) (LogViews.b_date b)) r'
                   = []).
    { induction r' as [|x r' IHr]; cbn; [reflexivity|]. intros Hn.
      destruct (String.eqb (LogViews.b_date x) (LogViews.b_date b)) eqn:Ex.
      - exfalso. apply Hn. left. apply String.eqb_eq, Ex.
      - apply IHr. tauto. }
    rewrite (Hz r Hh). cbn. lia.
  - destruct (String.eqb (LogViews.b_date h) (LogViews.b_date b)) eqn:E.
    + exfalso. apply Hh. apply String.eqb_eq in E. rewrite E. apply in_map, Hin.
    + apply IH; assumption.
Qed.

Lemma dayTotal_perm d bs bs' : Permutation bs bs' -> dayTotal d bs = dayTotal d bs'.
Proof.
  intros Hp. unfold dayTotal. apply Permutation_list_sum, Permutation_map.
  induction Hp; cbn.
  - reflexivity.
  - destruct (String.eqb _ _); [constructor|]; assumption.
  - destruct (String.eqb (LogViews.b_date x) d), (String.eqb (LogViews.b_date y) d);
      try reflexivity. apply perm_swap.
  - etransitivity; eassumption.
Qed.

Lemma dayTotal_positive d bs :
  (1 <= dayTotal d bs)%nat -> exists b, In b bs /\ LogViews.b_date b = d.
Proof.
  unfold dayTotal. induction bs as [|h r IH]; cbn; [lia|].
  destruct (String.eqb (LogViews.b_date h) d) eqn:E.
  - intros _. exists h. split; [left; reflexivity | apply String.eqb_eq, E].
  - intros H. destruct (IH H) as (b & Hb & Hd). exists b. tauto.
Qed.

(** What the timeline pipeline computes from the matched entries. *)
Lemma timelineOf_report (start : Z) (ls : list SyncLog) :
  let matched := filter (LogViews.inWindow (Some start) None) ls in
  let ts := LogViews.timelineOf start ls in
  ascendingDates ts
  /\ Forall (fun b =>
       LogViews.b_total b
       = List.length (filter (fun l => String.eqb (LogViews.dateOf l) (LogViews.b_date b))
                        matched)
       /\ LogViews.b_total b = tally (LogViews.b_levels b)
       /\ (1 <= LogViews.b_total b)%nat) ts
  /\ list_sum (map LogViews.b_total ts) = List.length matched
  /\ forall l, In l matched -> exists b, In b ts /\ LogViews.b_date b = LogViews.dateOf l.
Proof.
  intros matched ts. unfold LogViews.timelineOf in ts. fold matched in ts.
  set (key := fun l : SyncLog => (LogViews.dateOf l, l_level l)) in *.
  set (groups := LogViews.countBy LogViews.pairEqb key matched) in *.
  destruct (byDate_report groups (countBy_positive _ _ _)) as (Hnd & Hok & Hsum & Hday).
  assert (Hp : Permutation ts (LogViews.byDate groups)) by apply sortByDate_perm.
  assert (Hsel : forall d (a b : string * string),
            LogViews.pairEqb a b = true -> String.eqb (fst a) d = String.eqb (fst b) d).
  { intros d a b E. unfold LogViews.pairEqb in E. apply andb_true_iff in E.
    destruct E as [E _]. apply String.eqb_eq in E. rewrite E. reflexivity. }
  assert (Hcount : forall d, dayTotal d ts
                             = List.length (filter (fun l => String.eqb (LogViews.dateOf l) d)
                                              matched)).
  { intros d. rewrite (dayTotal_perm d _ _ Hp), Hday. unfold groups.
    rewrite (countBy_share LogViews.pairEqb (fun k => String.eqb (fst k) d) key matched
               (Hsel d)).
    reflexivity. }
  assert (Hnd' : NoDup (map LogViews.b_date ts)).
  { eapply Permutation_NoDup; [symmetry; apply Permutation_map, Hp | exact Hnd]. }
  split; [apply sortByDate_ascending, Hnd|]. split; [|split].
  - apply Forall_forall. intros b Hb.
    assert (Hb' : In b (LogViews.byDate groups)) by (eapply Permutation_in; eassumption).
    rewrite Forall_forall in Hok. destruct (Hok b Hb') as [H1 H2].
    split; [|split; assumption].
    rewrite <- Hcount. symmetry. apply dayTotal_of_bucket; assumption.
  - rewrite (Permutation_list_sum (Permutation_map LogViews.b_total Hp)), Hsum.
    unfold groups. apply countBy_tally.
  - intros l Hl. apply dayTotal_positive. rewrite Hcount.
    assert (Hin : In l (filter (fun l0 => String.eqb (LogViews.dateOf l0) (LogViews.dateOf l))
                          matched)).
    { apply filter_In. split; [exact Hl | apply String.eqb_refl]. }
    destruct (filter _ matched); [destruct Hin | cbn; lia].
Qed.

(** ** Queries of the log views *)

Lemma insertDesc_perm l ls : Permutation (Logs.insertDesc l ls) (l :: ls).
Proof.
  induction ls as [|h t IH]; cbn [Logs.insertDesc]; [reflexivity|].
  destruct (l_createdAt h <? l_createdAt l); [reflexivity|].
  rewrite IH. apply perm_swap.
Qed.


Lemma sortDesc_newestFirst ls : newestFirst (Logs.sortDesc ls).
Proof.
  unfold newestFirst.
  induction ls as [|l r IH]; cbn [Logs.sortDesc fold_right]; [constructor|].
  fold (Logs.sortDesc r). revert IH. generalize (Logs.sortDesc r). intros s.
  induction s as [|h t IHs]; cbn [Logs.insertDesc]; intros Hs.
  - constructor; constructor.
  - inversion Hs as [|? ? Ht Hh]; subst.
    destruct (Z.ltb_spec (l_createdAt h) (l_createdAt l)).
    + constructor; [exact Hs|]. constructor; [lia|].
      eapply Forall_impl; [|exact Hh]. cbn. intros; lia.
    + constructor; [apply IHs, Ht|].
      eapply Permutation_Forall; [symmetry; apply insertDesc_perm|].
      constructor; [lia | exact Hh].
Qed.


Lemma sorted_firstn {A} (R : A -> A -> Prop) n l :
  StronglySorted R l -> StronglySorted R (firstn n l).
Proof.
  revert l. induction n as [|n IH]; intros [|a l] H; cbn; try constructor.
  - inversion H; subst. apply IH. assumption.
  - inversion H as [|? ? Hl Ha]; subst.
    rewrite Forall_forall in *. intros x Hx. apply Ha.
    rewrite <- (firstn_skipn n l). apply in_or_app. left. exact Hx.
Qed.

Lemma sorted_map {A B} (R : A -> A -> Prop) (R' : B -> B -> Prop) (f : A -> B) l :
  (forall a b, R a b -> R' (f a) (f b)) ->
  StronglySorted R l -> StronglySorted R' (map f l).
Proof.
  intros HR. induction 1 as [|a l Hl IH Ha]; cbn; constructor; [exact IH|].
  rewrite Forall_forall in *. intros y Hy. apply in_map_iff in Hy.
  destruct Hy as (x & <- & Hx). apply HR, Ha, Hx.
Qed.






Lemma roundTrip_up c w :
  faults w c (calls w c) = false -> roundTrip c w = (inr tt, tick c w).
Proof. intros H. unfold roundTrip. rewrite H. reflexivity. Qed.

Lemma healthy_tick c w : healthy w -> healthy (tick c w).
Proof. intros H c' n. apply H. Qed.

Lemma filter_all {A} (f : A -> bool) l : (forall x, f x = true) -> filter f l = l.
Proof.
  intros H. induction l as [|a l IH]; cbn; [reflexivity|]. rewrite H, IH. reflexivity.
Qed.

Lemma selected_noFilter w : Logs.selected LogViews.noFilter w = logs w.
Proof. unfold Logs.selected. apply filter_all. intros l. reflexivity. Qed.


Lemma disjoint_filters {A} (f g : A -> bool) l :
  (forall x, f x = true -> g x = false) ->
  (List.length (filter f l) + List.length (filter g l) <= List.length l)%nat.
Proof.
  intros H. induction l as [|a l IH]; cbn; [lia|].
  destruct (f a) eqn:Ef; [rewrite (H a Ef)|destruct (g a)]; cbn; lia.
Qed.

(** ** GET /stats/timeline *)

(** X10.  When the log store answers, the timeline has one bucket for each
    date on which a matched entry was created and none for the other dates,
    in strictly increasing order of date; the total of a bucket is the
    number of matched entries of its date and the sum of its level counts,
    and the totals add up to the number of matched entries.  The matched
    entries are those created at or after midnight [days] days ago. *)
Theorem timeline_counts_every_matched_entry (q : Logs.Query) (w : World) :
  faults w SyncLogs (calls w SyncLogs) = false ->
  let start := LogViews.timelineStart (clock w) (LogViews.daysOf q) in
  let matched := filter (fun l => start <=? l_createdAt l) (logs w) in
  exists ts w',
    LogViews.timelineHandler q w = (LogViews.Timeline ts, w')
    /\ logs w' = logs w
    /\ ascendingDates ts
    /\ Forall (fun b =>
         LogViews.b_total b
         = List.length (filter (fun l => String.eqb (LogViews.dateOf l) (LogViews.b_date b))
                          matched)
         /\ LogViews.b_total b = tally (LogViews.b_levels b)
         /\ (1 <= LogViews.b_total b)%nat) ts
    /\ list_sum (map LogViews.b_total ts) = List.length matched
    /\ forall l, In l matched -> exists b, In b ts /\ LogViews.b_date b = LogViews.dateOf l.
Proof.
  intros Hup start matched.
  exists (LogViews.timelineOf start (logs w)), (tick SyncLogs w).
  split.
  - unfold LogViews.timelineHandler, LogViews.respond. run. rewrite Hup. reflexivity.
  - split; [reflexivity|].
    assert (Hm : matched = filter (LogViews.inWindow (Some start) None) (logs w)).
    { apply filter_ext. intros l. unfold LogViews.inWindow. rewrite andb_true_r. reflexivity. }
    rewrite Hm. apply timelineOf_report.
Qed.

Lemma timeline_counts_every_matched_entry_witness :
  exists ts w',
    LogViews.timelineHandler noQuery auditStore = (LogViews.Timeline ts, w')
    /\ logs w' = logs auditStore
    /\ ascendingDates ts.
Proof.
  destruct (timeline_counts_every_matched_entry noQuery auditStore eq_refl)
    as (ts & w' & H1 & H2 & H3 & _).
  exists ts, w'. split; [exact H1|]. split; [exact H2 | exact H3].
Defined.

(** ** GET /stats/overview *)

Lemma both_run {A B} (a : M World A) (b : M World B) w x w1 y w2 :
  a w = (inr x, w1) -> b w1 = (inr y, w2) -> LogViews.both a b w = (inr (x, y), w2).
Proof. intros Ha Hb. unfold LogViews.both. rewrite Ha, Hb. reflexivity. Qed.

Lemma countWindow_run lo hi w :
  faults w SyncLogs (calls w SyncLogs) = false ->
  LogViews.countWindow lo hi w
  = (inr (List.length (filter (LogViews.inWindow lo hi) (logs w))), tick SyncLogs w).
Proof. intros H. unfold LogViews.countWindow. run. rewrite H. reflexivity. Qed.

Lemma groupOperations_run w :
  faults w SyncLogs (calls w SyncLogs) = false ->
  LogViews.groupOperations w
  = (inr (LogViews.sortByCount (LogViews.countBy LogViews.optEqb l_operation (logs w))),
     tick SyncLogs w).
Proof. intros H. unfold LogViews.groupOperations. run. rewrite H. reflexivity. Qed.

Lemma groupLevels_run w :
  faults w SyncLogs (calls w SyncLogs) = false ->
  LogViews.groupLevels w
  = (inr (LogViews.sortByCount (LogViews.countBy String.eqb l_level (logs w))),
     tick SyncLogs w).
Proof. intros H. unfold LogViews.groupLevels. run. rewrite H. reflexivity. Qed.

Lemma populate_run ls w :
  healthy w ->
  exists w', Logs.populate ls w = (inr (map (Logs.attach (users w)) ls), w')
             /\ logs w' = logs w.
Proof.
  intros H. unfold Logs.populate. destruct (existsb Logs.hasUserId ls) eqn:E.
  - exists (tick Users w). run. rewrite H. split; reflexivity.
  - exists w. run. split; [|reflexivity]. f_equal. f_equal.
    apply map_ext_in. intros l Hl. symmetry. apply attach_no_user.
    destruct (Logs.hasUserId l) eqn:El; [|reflexivity].
    assert (existsb Logs.hasUserId ls = true) by (apply existsb_exists; eauto).
    congruence.
Qed.

Lemma recentActivity_run w :
  healthy w ->
  exists w', LogViews.recentActivity w
             = (inr (map LogViews.project
                       (map (Logs.attach (users w)) (firstn 10 (Logs.sortDesc (logs w))))),
                w')
             /\ logs w' = logs w.
Proof.
  intros H. unfold LogViews.recentActivity, Logs.find. cbn [Logs.castError LogViews.noFilter
    Logs.f_userId].
  unfold bind at 1. unfold bind at 1. rewrite roundTrip_up by apply H.
  cbn [Z.ltb Z.compare]. unfold bind at 1. unfold gets at 1.
  destruct (populate_run
              (Logs.applyLimit 10
                 (skipn (Z.to_nat 0) (Logs.sortDesc (Logs.selected LogViews.noFilter
                                                       (tick SyncLogs w)))))
              (tick SyncLogs w) (healthy_tick _ _ H)) as (w' & Hp & Hl).
  exists w'. rewrite Hp. unfold ret. split; [|exact Hl].
  rewrite selected_noFilter. reflexivity.
Qed.

Lemma optEqb_eq a b : LogViews.optEqb a b = true <-> a = b.
Proof.
  destruct a as [x|], b as [y|]; cbn; try (split; congruence).
  rewrite String.eqb_eq. split; congruence.
Qed.

(** X9.  In a healthy store the overview is consistent with the log: the
    total is the size of the log, today and yesterday count the entries of
    two disjoint windows, every operation and level group carries the
    number of entries with that value, the groups are listed by decreasing
    count without repetition and add up to the total, and the recent
    activity is the ten newest entries (all of them if there are fewer). *)
Theorem overview_is_consistent (w : World) :
  healthy w ->
  let midnight := LogViews.startOfDay (clock w) in
  exists total today yesterday operations levels recent w',
    LogViews.overviewHandler w
    = (LogViews.Overview total today yesterday (Z.of_nat today - Z.of_nat yesterday)
         operations levels recent, w')
    /\ logs w' = logs w
    /\ total = List.length (logs w)
    /\ today = List.length (filter (fun l => midnight <=? l_createdAt l) (logs w))
    /\ yesterday
       = List.length (filter (fun l => (midnight - JS.msPerDay <=? l_createdAt l)
                                       && (l_createdAt l <? midnight)) (logs w))
    /\ (today + yesterday <= total)%nat
    /\ tally operations = total /\ tally levels = total
    /\ Forall (fun g => snd g = List.length
                                  (filter (fun l => LogViews.optEqb (l_operation l) (fst g))
                                     (logs w))
                        /\ (1 <= snd g)%nat) operations
    /\ Forall (fun g => snd g = List.length
                                  (filter (fun l => String.eqb (l_level l) (fst g)) (logs w))
                        /\ (1 <= snd g)%nat) levels
    /\ NoDup (map fst operations) /\ NoDup (map fst levels)
    /\ descending operations /\ descending levels
    /\ List.length recent = Nat.min 10 total
    /\ StronglySorted (fun a b => LogViews.a_createdAt b <= LogViews.a_createdAt a) recent.
Proof.
  intros H midnight.
  set (w1 := tick SyncLogs w). set (w2 := tick SyncLogs w1). set (w3 := tick SyncLogs w2).
  set (w4 := tick SyncLogs w3). set (w5 := tick SyncLogs w4).
  assert (H5 : healthy w5) by (repeat apply healthy_tick; exact H).
  destruct (recentActivity_run w5 H5) as (w6 & Hrec & Hl6).
  pose proof (groupLevels_run w4 (H _ _)) as Hlev.
  pose proof (groupOperations_run w3 (H _ _)) as Hops.
  pose proof (countWindow_run (Some (midnight - JS.msPerDay)) (Some midnight) w2 (H _ _))
    as Hy.
  pose proof (countWindow_run (Some midnight) None w1 (H _ _)) as Ht.
  pose proof (countWindow_run None None w (H _ _)) as Htot.
  pose proof (both_run _ _ _ _ _ _ _ Hlev Hrec) as B5.
  pose proof (both_run _ _ _ _ _ _ _ Hops B5) as B4.
  pose proof (both_run _ _ _ _ _ _ _ Hy B4) as B3.
  pose proof (both_run _ _ _ _ _ _ _ Ht B3) as B2.
  pose proof (both_run _ _ _ _ _ _ _ Htot B2) as B1.
  destruct (groups_report LogViews.optEqb l_operation (logs w) optEqb_eq)
    as (O1 & O2 & O3 & O4).
  destruct (groups_report String.eqb l_level (logs w) String.eqb_eq)
    as (L1 & L2 & L3 & L4).
  eexists _, _, _, _, _, _, w6. split.
  - unfold LogViews.overviewHandler, LogViews.respond.
    unfold bind at 1. unfold now, gets at 1. fold midnight.
    unfold bind at 1. fold w1 w2 w3 w4 w5 in B1. rewrite B1. unfold ret. reflexivity.
  - split; [exact Hl6|].
    split; [rewrite filter_all by reflexivity; reflexivity|].
    split; [apply f_equal, filter_ext; intros l; unfold LogViews.inWindow;
            apply andb_true_r|].
    split; [reflexivity|].
    split.
    { change (logs w2) with (logs w). change (logs w1) with (logs w).
      rewrite (filter_all (LogViews.inWindow None None)) by reflexivity.
      etransitivity; [|apply (disjoint_filters
                                (LogViews.inWindow (Some midnight) None)
                                (LogViews.inWindow (Some (midnight - JS.msPerDay))
                                   (Some midnight)) (logs w))].
      - lia.
      - intros l. unfold LogViews.inWindow. rewrite andb_true_r. intros Hm.
        apply andb_false_iff. right. apply Z.ltb_ge. apply Z.leb_le. exact Hm. }
    change (logs w3) with (logs w). change (logs w4) with (logs w).
    rewrite (filter_all (LogViews.inWindow None None)) by reflexivity.
    split; [exact O1|]. split; [exact L1|]. split; [exact O2|]. split; [exact L2|].
    split; [exact O3|]. split; [exact L3|]. split; [exact O4|]. split; [exact L4|].
    change (logs w5) with (logs w). split.
    + rewrite !length_map, length_firstn, sortDesc_length. reflexivity.
    + rewrite map_map.
      apply (sorted_map (fun a b => l_createdAt b <= l_createdAt a)).
      * intros a b Hab. exact Hab.
      * apply sorted_firstn, sortDesc_newestFirst.
Qed.

Lemma overview_is_consistent_witness :
  exists total today yesterday operations levels recent w',
    LogViews.overviewHandler auditStore
    = (LogViews.Overview total today yesterday (Z.of_nat today - Z.of_nat yesterday)
         operations levels recent, w')
    /\ logs w' = logs auditStore
    /\ total = List.length (logs auditStore)
    /\ tally operations = total /\ tally levels = total.
Proof.
  destruct (overview_is_consistent auditStore (fun c n => eq_refl))
    as (total & today & yesterday & operations & levels & recent & w'
        & H1 & H2 & H3 & _ & _ & _ & H4 & H5 & _).
  exists total, today, yesterday, operations, levels, recent, w'.
  repeat split; assumption.
Defined.

(** ** GET /user/:userId *)



(** ** GET /:id *)

Lemma logHandler_run (id : string) (oid : ObjectId) (w : World) :
  healthy w -> Logs.castObjectId id = Some oid ->
  exists w',
    LogViews.logHandler id w
    = (match find (fun l => Nat.eqb (l_id l) oid) (logs w) with
       | Some l =>
           LogViews.LogFound l
             match l_userId l with
             | Some uid => option_map LogViews.selectUser
                             (find (fun u => Nat.eqb (u_id u) uid) (users w))
             | None => None
             end
       | None => LogViews.Problem 404 "Log not found"
       end, w')
    /\ logs w' = logs w.
Proof.
  intros H Hc. unfold LogViews.logHandler, LogViews.respond, LogViews.findById.
  rewrite Hc. unfold bind at 1. unfold bind at 1. rewrite roundTrip_up by apply H.
  unfold gets at 1. cbn [logs tick].
  destruct (find (fun l => Nat.eqb (l_id l) oid) (logs w)) as [l0|].
  - unfold bind at 1. unfold LogViews.populateOne. destruct (l_userId l0) as [uid|].
    + exists (tick Users (tick SyncLogs w)). unfold bind at 1.
      rewrite roundTrip_up by (apply healthy_tick, H).
      unfold bind, gets, ret. split; reflexivity.
    + exists (tick SyncLogs w). unfold ret. split; reflexivity.
  - exists (tick SyncLogs w). unfold ret. split; reflexivity.
Qed.

(** X7.  In a healthy store, the lookup of one entry answers with an entry
    of the log that has the requested id, whenever the log has such an
    entry.  The answer carries, in place of the entry's user id, the id,
    the username and the e-mail address (and not the role) of a user of the
    store who has that id; it carries null there when the entry names no
    user or no user of the store has the id.  The lookup answers 404 when
    the id is well formed and no entry has it, and 500 (not 404) when the
    id is not an ObjectId.  The log is never changed. *)
Theorem log_lookup_by_id (id : string) (w : World) :
  healthy w ->
  exists response w',
    LogViews.logHandler id w = (response, w')
    /\ logs w' = logs w
    /\ match Logs.castObjectId id with
       | None => response = LogViews.Problem 500 "Server error"
       | Some oid =>
           (forall l, In l (logs w) -> l_id l = oid ->
              exists l' user,
                response = LogViews.LogFound l' user
                /\ In l' (logs w) /\ l_id l' = oid
                /\ (forall r, user = Some r ->
                      exists u, In u (users w) /\ l_userId l' = Some (u_id u)
                                /\ r = LogViews.mkUserRef (u_id u) (u_username u) (u_email u))
                /\ (user = None ->
                      forall u, In u (users w) -> l_userId l' <> Some (u_id u)))
           /\ ((forall l, In l (logs w) -> l_id l <> oid) ->
               response = LogViews.Problem 404 "Log not found")
       end.
Proof.
  intros H. destruct (Logs.castObjectId id) as [oid|] eqn:Hc.
  - destruct (logHandler_run id oid w H Hc) as (w' & Hrun & Hl).
    eexists. exists w'. split; [exact Hrun|]. split; [exact Hl|].
    destruct (find (fun l => Nat.eqb (l_id l) oid) (logs w)) as [l0|] eqn:E.
    + apply find_some in E. destruct E as [E1 E2]. apply Nat.eqb_eq in E2. split.
      * intros l _ _. eexists l0, _. split; [reflexivity|].
        split; [exact E1|]. split; [exact E2|].
        destruct (l_userId l0) as [uid|].
        -- destruct (find (fun u => Nat.eqb (u_id u) uid) (users w)) as [u0|] eqn:Eu.
           ++ apply find_some in Eu. destruct Eu as [Eu1 Eu2]. apply Nat.eqb_eq in Eu2.
              split; [|discriminate]. intros r Hr. injection Hr as <-.
              exists u0. split; [exact Eu1|]. split; [congruence | reflexivity].
           ++ split; [discriminate|]. intros _ u Hu Hid.
              pose proof (find_none _ _ Eu u Hu) as Hn. cbn in Hn.
              injection Hid as ->. rewrite Nat.eqb_refl in Hn. discriminate.
        -- split; [discriminate|]. intros _ u _. discriminate.
      * intros Hnone. exfalso. exact (Hnone l0 E1 E2).
    + split; [|reflexivity].
      intros l Hin Hid. exfalso. pose proof (find_none _ _ E l Hin) as Hn. cbn in Hn.
      rewrite Hid, Nat.eqb_refl in Hn. discriminate.
  - unfold LogViews.logHandler, LogViews.respond, LogViews.findById. rewrite Hc.
    eexists. eexists. split; [reflexivity|]. split; reflexivity.
Qed.

Lemma log_lookup_by_id_witness :
  healthy auditStore
  /\ Logs.castObjectId "00000000000000000000000a" = Some 10%nat
  /\ fst (LogViews.logHandler "00000000000000000000000a" auditStore)
     = LogViews.LogFound oldEntry (Some (LogViews.mkUserRef 1%nat "root" "root@example.org"))
  /\ exists response w',
       LogViews.logHandler "00000000000000000000000a" auditStore = (response, w')
       /\ logs w' = logs auditStore
       /\ (forall l, In l (logs auditStore) -> l_id l = 10%nat ->
             exists l' user,
               response = LogViews.LogFound l' user
               /\ In l' (logs auditStore) /\ l_id l' = 10%nat
               /\ (forall r, user = Some r ->
                     exists u, In u (users auditStore) /\ l_userId l' = Some (u_id u)
                               /\ r = LogViews.mkUserRef (u_id u) (u_username u) (u_email u))
               /\ (user = None ->
                     forall u, In u (users auditStore) -> l_userId l' <> Some (u_id u))).
Proof.
  split; [intros c n; reflexivity|]. split; [reflexivity|].
  split; [vm_compute; reflexivity|].
  destruct (log_lookup_by_id "00000000000000000000000a" auditStore (fun c n => eq_refl))
    as (response & w' & Hrun & Hl & Hfound & _).
  exists response, w'. split; [exact Hrun|]. split; [exact Hl|]. exact Hfound.
Defined.

(** ** The product router: lookups *)

Lemma distinct_run path w :
  faults w Products (calls w Products) = false ->
  Catalog.distinct path w
  = (inr (nodup string_dec
            (flat_map (fun p => match path p with Some v => [v] | None => [] end)
               (products w))),
     tick Products w).
Proof. intros H. unfold Catalog.distinct. run. rewrite H. reflexivity. Qed.

Lemma in_values (path : Product -> option string) ps v :
  In v (flat_map (fun p => match path p with Some v => [v] | None => [] end) ps)
  <-> exists p, In p ps /\ path p = Some v.
Proof.
  rewrite in_flat_map. split; intros (p & Hp & Hv); exists p; (split; [exact Hp|]).
  - destruct (path p) as [x|]; [|destruct Hv]. destruct Hv as [->|[]]. reflexivity.
  - rewrite Hv. left. reflexivity.
Qed.

Lemma truthy_nonempty v : JS.truthy (Some v) = true <-> v <> EmptyString.
Proof.
  destruct v as [|a r]; cbn; split; intros H; congruence.
Qed.

(** X11.  When the product store answers, the vendor list names each vendor
    once, never the empty string, and names exactly the non-empty vendors
    of the products in the store; the category list names exactly the
    categories of the products, each once, and in a store whose products
    pass the schema no category is empty.  Neither handler changes the
    products. *)
Theorem vendor_and_category_lists (w : World) :
  faults w Products (calls w Products) = false ->
  exists vendors categories w1 w2,
    Catalog.vendorsHandler w = (Catalog.Vendors vendors, w1)
    /\ Catalog.categoriesHandler w = (Catalog.Categories categories, w2)
    /\ products w1 = products w /\ products w2 = products w
    /\ NoDup vendors /\ NoDup categories
    /\ (forall v, In v vendors
                  <-> v <> EmptyString /\ exists p, In p (products w) /\ p_vendor p = Some v)
    /\ (forall c, In c categories <-> exists p, In p (products w) /\ p_category p = Some c)
    /\ (storeOk w -> ~ In EmptyString categories).
Proof.
  intros H.
  eexists _, _, _, _. split.
  { unfold Catalog.vendorsHandler, Catalog.respond. unfold bind at 1.
    rewrite (distinct_run _ _ H). unfold ret. reflexivity. }
  split.
  { unfold Catalog.categoriesHandler, Catalog.respond. unfold bind at 1.
    rewrite (distinct_run _ _ H). unfold ret. reflexivity. }
  split; [reflexivity|]. split; [reflexivity|].
  split; [apply NoDup_filter, NoDup_nodup|]. split; [apply NoDup_nodup|].
  split; [|split].
  - intros v. rewrite filter_In, nodup_In, in_values, truthy_nonempty. tauto.
  - intros c. rewrite nodup_In, in_values. reflexivity.
  - intros (_ & _ & _ & Hvalid) Hin. rewrite nodup_In, in_values in Hin.
    destruct Hin as (p & Hp & Hc). rewrite Forall_forall in Hvalid.
    pose proof (Hvalid p Hp) as Hv. apply pathErrors_parts in Hv.
    destruct Hv as (_ & _ & _ & Hcat & _). rewrite Hc in Hcat. discriminate.
Qed.

Lemma vendor_and_category_lists_witness :
  exists vendors categories w1 w2,
    Catalog.vendorsHandler stockedStore = (Catalog.Vendors vendors, w1)
    /\ Catalog.categoriesHandler stockedStore = (Catalog.Categories categories, w2)
    /\ products w1 = products stockedStore /\ products w2 = products stockedStore
    /\ NoDup vendors /\ NoDup categories
    /\ (forall v, In v vendors
                  <-> v <> EmptyString
                      /\ exists p, In p (products stockedStore) /\ p_vendor p = Some v)
    /\ (forall c, In c categories
                  <-> exists p, In p (products stockedStore) /\ p_category p = Some c)
    /\ (storeOk stockedStore -> ~ In EmptyString categories).
Proof.
  exact (vendor_and_category_lists stockedStore eq_refl).
Defined.

Lemma find_by_id (ps : list Product) (p : Product) :
  NoDup (map p_id ps) -> In p ps ->
  find (fun q => Nat.eqb (p_id q) (p_id p)) ps = Some p.
Proof.
  induction ps as [|q r IH]; cbn; [tauto|]. intros Hnd Hin.
  inversion Hnd as [|? ? Hq Hr]; subst.
  destruct Hin as [->|Hin]; [rewrite Nat.eqb_refl; reflexivity|].
  destruct (Nat.eqb_spec (p_id q) (p_id p)) as [E|_]; [|apply IH; assumption].
  exfalso. apply Hq. rewrite E. apply in_map, Hin.
Qed.

(** X12.  When the product store answers and its product ids are distinct,
    the lookup of a product answers with the product of the store that has
    the requested id, 404 when the id is well formed and no product has it,
    and 500 (not 404) when the id is not an ObjectId; the products are not
    changed. *)
Theorem product_lookup_by_id (id : string) (w : World) :
  faults w Products (calls w Products) = false ->
  NoDup (map p_id (products w)) ->
  exists response w',
    Catalog.productHandler id w = (response, w')
    /\ products w' = products w
    /\ match Logs.castObjectId id with
       | None => response = Catalog.Problem 500 "Server error"
       | Some oid =>
           (forall p, In p (products w) -> p_id p = oid ->
                      response = Catalog.ProductFound p)
           /\ ((forall p, In p (products w) -> p_id p <> oid) ->
               response = Catalog.Problem 404 "Product not found")
       end.
Proof.
  intros H Hnd. unfold Catalog.productHandler, Catalog.respond, Catalog.findById.
  destruct (Logs.castObjectId id) as [oid|].
  - unfold bind at 1. unfold bind at 1. rewrite roundTrip_up by exact H.
    unfold gets at 1. cbn [products tick].
    destruct (find (fun p => Nat.eqb (p_id p) oid) (products w)) as [p0|] eqn:E;
      unfold ret; eexists _, _; (split; [reflexivity|]); (split; [reflexivity|]); split.
    + intros p Hin Hid. subst oid. rewrite (find_by_id _ _ Hnd Hin) in E. congruence.
    + intros Hnone. exfalso. apply find_some in E. destruct E as [E1 E2].
      apply Nat.eqb_eq in E2. exact (Hnone p0 E1 E2).
    + intros p Hin Hid. exfalso. pose proof (find_none _ _ E p Hin) as Hn. cbn in Hn.
      rewrite Hid, Nat.eqb_refl in Hn. discriminate.
    + reflexivity.
  - eexists _, _. split; [reflexivity|]. split; reflexivity.
Qed.

Lemma product_lookup_by_id_witness :
  exists response w',
    Catalog.productHandler "000000000000000000000007" stockedStore = (response, w')
    /\ products w' = products stockedStore
    /\ match Logs.castObjectId "000000000000000000000007" with
       | None => response = Catalog.Problem 500 "Server error"
       | Some oid =>
           (forall p, In p (products stockedStore) -> p_id p = oid ->
                      response = Catalog.ProductFound p)
           /\ ((forall p, In p (products stockedStore) -> p_id p <> oid) ->
               response = Catalog.Problem 404 "Product not found")
       end.
Proof.
  apply (product_lookup_by_id "000000000000000000000007" stockedStore).
  - reflexivity.
  - cbn. constructor; [intros [] | constructor].
Defined.

(** ** Retention when the audit write fails *)

(** X13.  The purge and its audit entry are two separate writes.  Let the
    cutoff, now minus the day threshold, be within the range of Date.  When
    the purge succeeds and the write of the audit entry fails, the handler
    answers 500, yet the entries created before the cutoff are gone, the
    others are kept, and no entry records the purge. *)
Theorem cleanup_is_not_undone_when_its_audit_entry_fails (req : Logs.Request) (w : World) :
  let cutoff := clock w - Logs.daysToKeepOf (Logs.query req) * JS.msPerDay in
  u_role (Logs.req_user req) = "admin" ->
  Z.abs cutoff <= JS.maxTime ->
  faults w SyncLogs (calls w SyncLogs) = false ->
  faults w SyncLogs (S (calls w SyncLogs)) = true ->
  exists w',
    Logs.cleanupHandler req w = (Failure 500 "Server error", w')
    /\ logs w' = filter (fun l => cutoff <=? l_createdAt l) (logs w).
Proof.
  intros cutoff Hadmin Hrange H0 H1.
  assert (Hc : Logs.cutoffDate (clock w) (Logs.daysToKeepOf (Logs.query req)) = Some cutoff).
  { apply cutoffDate_some. split; [reflexivity | exact Hrange]. }
  unfold Logs.cleanupHandler. rewrite Hadmin. cbn [String.eqb negb].
  unfold Logs.respond. unfold bind at 1. unfold now, gets at 1. rewrite Hc.
  unfold bind at 1. unfold Logs.deleteManyBefore.
  unfold bind at 1. rewrite roundTrip_up by exact H0.
  unfold bind at 1. unfold gets at 1. unfold bind at 1. unfold modify at 1. unfold ret at 1.
  unfold bind at 1.
  match goal with
  | |- context [SyncLogModel.createLog ?d ?w0] =>
      destruct (createLog_cases d w0) as [(e & He & _ & _ & Hup) | (e & w' & He & Hl & _)]
  end.
  - exfalso. cbn in Hup. congruence.
  - rewrite He. exists w'. split; [reflexivity|]. rewrite Hl. cbn [logs setLogs tick].
    apply filter_ext. intros l. symmetry. apply Z.leb_antisym.
Qed.

Lemma cleanup_is_not_undone_when_its_audit_entry_fails_witness :
  exists w',
    Logs.cleanupHandler (logRequest admin noQuery) auditStoreWithGlitch
    = (Failure 500 "Server error", w')
    /\ logs w' = [quotedEntry; clerkEntry].
Proof.
  destruct (cleanup_is_not_undone_when_its_audit_entry_fails (logRequest admin noQuery)
              auditStoreWithGlitch) as (w' & Hrun & Hlogs).
  - reflexivity.
  - vm_compute. discriminate.
  - reflexivity.
  - reflexivity.
  - exists w'. split; [exact Hrun|]. rewrite Hlogs. reflexivity.
Defined.

(** ** The further handlers on the sample stores *)

Example scenario_timeline :
  fst (LogViews.timelineHandler noQuery auditStore)
  = LogViews.Timeline
      [LogViews.mkBucket "2024-02-27" [("error", 1%nat)] 1;
       LogViews.mkBucket "2024-02-28" [("info", 1%nat)] 1].
Proof. vm_compute. reflexivity. Qed.

Example scenario_overview_counts :
  match fst (LogViews.overviewHandler auditStore) with
  | LogViews.Overview total today yesterday change operations levels recent =>
      (total, today, yesterday, change) = (3%nat, 0%nat, 1%nat, -1)
      /\ operations = [(Some "sync", 3%nat)]
      /\ levels = [("info", 2%nat); ("error", 1%nat)]
      /\ map LogViews.a_id recent = [12; 11; 10]%nat
  | _ => False
  end.
Proof. vm_compute. repeat split; reflexivity. Qed.

Example scenario_malformed_id :
  fst (LogViews.logHandler "latest" auditStore) = LogViews.Problem 500 "Server error"
  /\ fst (LogViews.logHandler "00000000000000000000000b" auditStore)
     = LogViews.LogFound quotedEntry None
  /\ fst (LogViews.logHandler "00000000000000000000000f" auditStore)
     = LogViews.Problem 404 "Log not found".
Proof. repeat split; vm_compute; reflexivity. Qed.

Example scenario_categories :
  fst (Catalog.categoriesHandler stockedStore) = Catalog.Categories ["X"]
  /\ fst (Catalog.vendorsHandler stockedStore) = Catalog.Vendors [].
Proof. split; vm_compute; reflexivity. Qed.
